(** * Squash: the splice engine (squash/splice.c) and the page-size cache
      (squash/util.c)

    A shallow embedding of the splice functions of Squash, and the
    properties of them that the specification states.

    C functions become Rocq functions that pass the state of the outside
    world explicitly.  What a [void* user_data] points to becomes a value of
    a type [U] of the caller's choice, threaded through every callback; a
    value returned through a pointer becomes one more result.  Loops that
    the C code does not bound take a fuel argument and answer [None] when it
    runs out: [None] is a call that has not returned.

    Conventions
    - [size_t] is a 64-bit unsigned integer: a [Z] with the wrap-around
      written out ([add_sz], [sub_sz], [shl_sz]).
    - An [assert] that checks what the caller, a callback or the C library
      promised is kept as a comment.  The one assertion on the arithmetic of
      splice.c itself, [assert (overrun < SQUASH_SPLICE_BUF_SIZE)] in the
      stream loop, is modelled: where [NDEBUG] is not defined a failure
      stops the program, and the call does not return.
    - A block that [malloc] returns holds whatever the allocator left in
      it ([malloc_data]); what a codec stores goes to its start.
    - [free], [flockfile] and [funlockfile] return nothing the code looks at
      and are left out.

    Contents: the model; a platform with logging externals, test codecs and
    test callbacks to run it on; the rules of the spec the code is compared
    with; the properties. *)

From Stdlib Require Import ZArith List Bool String Lia.
From Stdlib.Strings Require Import Byte.
Import ListNotations.
Open Scope Z_scope.

Set Implicit Arguments.

(** ** Status codes and directions *)

(** Modelled from the spec: squash/status.h is not among the sources.  The
    spec names the kinds (section 6); the code compares a status with 0,
    success kinds being positive and errors negative. *)
Inductive SquashStatus : Type :=
| SQUASH_OK
| SQUASH_PROCESSING
| SQUASH_END_OF_STREAM
| SQUASH_FAILED
| SQUASH_UNABLE_TO_LOAD
| SQUASH_BAD_PARAM
| SQUASH_BAD_VALUE
| SQUASH_MEMORY
| SQUASH_BUFFER_FULL
| SQUASH_BUFFER_EMPTY
| SQUASH_STATE
| SQUASH_INVALID_OPERATION
| SQUASH_NOT_FOUND
| SQUASH_INVALID_BUFFER
| SQUASH_IO
| SQUASH_RANGE.

Definition status_value (s : SquashStatus) : Z :=
  match s with
  | SQUASH_OK => 1
  | SQUASH_PROCESSING => 2
  | SQUASH_END_OF_STREAM => 3
  | SQUASH_FAILED => -1
  | SQUASH_UNABLE_TO_LOAD => -2
  | SQUASH_BAD_PARAM => -3
  | SQUASH_BAD_VALUE => -4
  | SQUASH_MEMORY => -5
  | SQUASH_BUFFER_FULL => -6
  | SQUASH_BUFFER_EMPTY => -7
  | SQUASH_STATE => -8
  | SQUASH_INVALID_OPERATION => -9
  | SQUASH_NOT_FOUND => -10
  | SQUASH_INVALID_BUFFER => -11
  | SQUASH_IO => -12
  | SQUASH_RANGE => -13
  end.

Definition status_eqb (a b : SquashStatus) : bool :=
  status_value a =? status_value b.

(** [res < 0] and [res > 0] of the C code. *)
Definition status_neg (s : SquashStatus) : bool := status_value s <? 0.
Definition status_pos (s : SquashStatus) : bool := 0 <? status_value s.

(** Modelled from the spec: [squash_error] (squash/status.c) is not among the
    sources; a failure is signalled by returning its status. *)
Definition squash_error (s : SquashStatus) : SquashStatus := s.

Inductive SquashStreamType : Type :=
| SQUASH_STREAM_COMPRESS
| SQUASH_STREAM_DECOMPRESS.

Definition stream_type_eqb (a b : SquashStreamType) : bool :=
  match a, b with
  | SQUASH_STREAM_COMPRESS, SQUASH_STREAM_COMPRESS => true
  | SQUASH_STREAM_DECOMPRESS, SQUASH_STREAM_DECOMPRESS => true
  | _, _ => false
  end.

(** ** [size_t] arithmetic *)

Definition SIZE_MODULUS : Z := 2 ^ 64.

Definition to_size_t (z : Z) : Z := z mod SIZE_MODULUS.
Definition add_sz (a b : Z) : Z := to_size_t (a + b).
Definition sub_sz (a b : Z) : Z := to_size_t (a - b).
Definition shl_sz (a k : Z) : Z := to_size_t (Z.shiftl a k).

Definition zlen (l : list byte) : Z := Z.of_nat (List.length l).

(** Bytes stored at the start of a buffer. *)
Definition blit (data buf : list byte) : list byte :=
  data ++ skipn (List.length data) buf.

(** [#define SQUASH_SPLICE_BUF_SIZE ((size_t) 512)] *)
Definition SQUASH_SPLICE_BUF_SIZE : Z := 512.

(** Modelled from the spec: squash/codec.h is not among the sources.
    [SQUASH_CODEC_INFO_KNOWS_UNCOMPRESSED_SIZE] is one of the capability
    flags of the codec's info word; the code only tests whether it is set,
    and which bit it is does not matter below. *)
Definition SQUASH_CODEC_INFO_KNOWS_UNCOMPRESSED_SIZE : Z := 4.

(** ** [squash_get_page_size] (squash/util.c) *)

(** What the system answers when asked for the page size: [sysconf
    (_SC_PAGESIZE)], a [long], where [_SC_PAGESIZE] is defined; otherwise the
    result of [sysctl] and the [unsigned int] it stored. *)
Inductive PageSizeQuery : Type :=
| Sysconf (ps : Z)
| Sysctl (sres : Z) (ps : Z).

(** The value stored in the static [page_size] by the body of the [if]. *)
Definition page_size_of_query (q : PageSizeQuery) : Z :=
  match q with
  | Sysconf ps => if ps =? -1 then 8192 else to_size_t ps
  | Sysctl sres ps => if sres =? 0 then to_size_t ps else 8192
  end.

(** [squash_get_page_size]: the static [page_size] before the call and the
    answer the system would give; the value returned and the static after
    the call. *)
Definition squash_get_page_size (page_size : Z) (q : PageSizeQuery) : Z * Z :=
  let page_size :=
    if page_size =? 0 then page_size_of_query q else page_size in
  (page_size, page_size).

(** A sequence of calls, from the static's current value; the values
    returned, in order. *)
Fixpoint page_size_calls (page_size : Z) (qs : list PageSizeQuery) : list Z :=
  match qs with
  | [] => []
  | q :: qs =>
      let '(r, page_size) := squash_get_page_size page_size q in
      r :: page_size_calls page_size qs
  end.

(** ** The platform

    [W] is the state of everything that lives outside splice.c: the files,
    the allocator, the environment, the internals of the codecs.  The other
    members are the types splice.c only passes around: what a [FILE*], a
    [SquashOptions*], a [SquashFile*] and a [va_list] designate. *)
Class Platform : Type := {
  W : Type;
  FILE : Type;
  SquashOptions : Type;
  SquashFile : Type;
  va_list : Type
}.

Section Model.

Context {P : Platform}.

(** ** Callbacks

    [SquashReadFunc]: [read (size_t* data_length, uint8_t* data, void*
    user_data)].  On entry [*data_length] is the number of bytes wanted;
    the callee stores the bytes and sets [*data_length] to their number,
    which the model reads off the returned list.

    [SquashWriteFunc]: [write (size_t* data_length, const uint8_t* data,
    void* user_data)].  [data] is the memory the pointer designates; the
    callee sets [*data_length] to the number of bytes it wrote. *)
Definition SquashReadFunc (U : Type) : Type :=
  Z -> U -> W -> (SquashStatus * list byte) * (U * W).

Definition SquashWriteFunc (U : Type) : Type :=
  Z -> list byte -> U -> W -> (SquashStatus * Z) * (U * W).

(** ** The byte-budget limiter *)

Record SquashSpliceLimitedData (U : Type) : Type := mkLimited {
  write_func : SquashWriteFunc U;
  read_func : SquashReadFunc U;
  user_data : U;
  stream_type : SquashStreamType;
  remaining : Z;
  written : Z
}.

Definition set_user_data {U} (ctx : SquashSpliceLimitedData U) (u : U) :=
  mkLimited (write_func ctx) (read_func ctx) u (stream_type ctx)
            (remaining ctx) (written ctx).

Definition set_remaining {U} (ctx : SquashSpliceLimitedData U) (r : Z) :=
  mkLimited (write_func ctx) (read_func ctx) (user_data ctx) (stream_type ctx)
            r (written ctx).

Definition set_written {U} (ctx : SquashSpliceLimitedData U) (n : Z) :=
  mkLimited (write_func ctx) (read_func ctx) (user_data ctx) (stream_type ctx)
            (remaining ctx) n.

(** [squash_splice_custom_limited_write]; its user data is the context. *)
Definition squash_splice_custom_limited_write {U}
  : SquashWriteFunc (SquashSpliceLimitedData U) :=
  fun data_length data ctx w =>
    let limit_output := stream_type_eqb (stream_type ctx) SQUASH_STREAM_DECOMPRESS in
    let data_length :=
      if limit_output && (data_length >? remaining ctx)
      then remaining ctx else data_length in
    if limit_output && (data_length =? 0) then
      ((SQUASH_END_OF_STREAM, data_length), (ctx, w))
    else
      let '((res, data_length), (u, w)) :=
        write_func ctx data_length data (user_data ctx) w in
      let ctx := set_user_data ctx u in
      if status_neg res then ((res, data_length), (ctx, w))
      else
        let ctx :=
          if limit_output
          then set_remaining ctx (sub_sz (remaining ctx) data_length)
          else ctx in
        let ctx := set_written ctx (add_sz (written ctx) data_length) in
        ((res, data_length), (ctx, w)).

(** [squash_splice_custom_limited_read] *)
Definition squash_splice_custom_limited_read {U}
  : SquashReadFunc (SquashSpliceLimitedData U) :=
  fun data_length ctx w =>
    let limit_input := stream_type_eqb (stream_type ctx) SQUASH_STREAM_COMPRESS in
    if remaining ctx =? 0 then
      ((SQUASH_END_OF_STREAM, []), (ctx, w))
    else
      let data_length :=
        if limit_input && (data_length >? remaining ctx)
        then remaining ctx else data_length in
      let '((res, data), (u, w)) :=
        read_func ctx data_length (user_data ctx) w in
      let ctx := set_user_data ctx u in
      let ctx :=
        if limit_input && status_pos res
        then set_remaining ctx (sub_sz (remaining ctx) (zlen data))
        else ctx in
      ((res, data), (ctx, w)).

(** ** Codecs and streams *)

(** The cursors of a [SquashStream].  [next_in] and [next_out] are offsets
    into the input and output scratch buffers; what the codec keeps for
    itself is part of [W]. *)
Record SquashStream : Type := mkStream {
  next_in : Z;
  avail_in : Z;
  total_in : Z;
  next_out : Z;
  avail_out : Z;
  total_out : Z
}.

Definition set_in (s : SquashStream) (pos avail : Z) : SquashStream :=
  mkStream pos avail (total_in s) (next_out s) (avail_out s) (total_out s).

Definition set_out (s : SquashStream) (pos avail : Z) : SquashStream :=
  mkStream (next_in s) (avail_in s) (total_in s) pos avail (total_out s).

(** Result of a buffer-to-buffer call: status, the length stored through
    the length pointer, the bytes stored in the output buffer. *)
Definition BufferResult : Type := (SquashStatus * Z * list byte) * W.

(** Result of [squash_stream_process] and [squash_stream_finish]: status,
    the cursors, the output scratch buffer. *)
Definition StreamResult : Type :=
  (SquashStatus * SquashStream * list byte) * W.

(** A codec as splice.c sees it: the members of [codec->impl] it tests or
    calls, and the calls it makes on the codec through squash/codec.c and
    squash/stream.c, which are not among the sources and are taken as they
    come.  The native splice receives its callbacks together with the user
    data they are to be called with, whatever its type. *)
Record SquashCodec : Type := mkCodec {
  impl_splice :
    option (forall U : Type,
               SquashOptions -> SquashStreamType ->
               SquashReadFunc U -> SquashWriteFunc U -> U -> W ->
               SquashStatus * (U * W));
  impl_process_stream : bool;
  impl_create_stream : bool;
  squash_codec_get_info : Z;
  squash_codec_get_max_compressed_size : Z -> Z;
  squash_codec_get_uncompressed_size : Z -> list byte -> Z;
  (** [(codec, &out_length, out, in_length, in, options)]; the first
      argument is the capacity found in [*out_length]. *)
  squash_codec_compress_with_options :
    Z -> Z -> list byte -> SquashOptions -> W -> BufferResult;
  squash_codec_decompress_with_options :
    Z -> Z -> list byte -> SquashOptions -> W -> BufferResult;
  squash_stream_new_codec_with_options :
    SquashStreamType -> SquashOptions -> W -> option SquashStream * W;
  (** [(stream)], with the input and the output scratch buffers. *)
  squash_stream_process :
    SquashStream -> list byte -> list byte -> W -> StreamResult;
  squash_stream_finish :
    SquashStream -> list byte -> list byte -> W -> StreamResult
}.

Definition knows_uncompressed_size (codec : SquashCodec) : bool :=
  Z.land (squash_codec_get_info codec) SQUASH_CODEC_INFO_KNOWS_UNCOMPRESSED_SIZE
  =? SQUASH_CODEC_INFO_KNOWS_UNCOMPRESSED_SIZE.

(** The two members of [SquashMappedFile] that splice.c reads. *)
Record SquashMappedFile : Type := mkMapped {
  map_data : list byte;
  map_length : Z
}.

(** ** What the C library and the rest of Squash provide

    The functions splice.c calls and does not define; none of them is among
    the sources, and each is taken as it comes. *)
Class Externals : Type := {
  (** [malloc (n)]: whether the pointer it returns is not NULL. *)
  malloc : Z -> W -> bool * W;
  (** The [n] bytes of the block that [malloc (n)] has just returned, as the
      allocator left them. *)
  malloc_data : Z -> W -> list byte;
  (** Whether the build defines [NDEBUG], which turns [assert] off. *)
  NDEBUG : bool;
  (** [squash_buffer_set_size (buffer, n)] *)
  squash_buffer_set_size : Z -> W -> bool * W;
  (** [squash_npot (n)], the next power of two. *)
  squash_npot : Z -> Z;
  (** [FILE] input and output, unlocked: the bytes read; the number of
      bytes written; the end-of-file indicator. *)
  SQUASH_FREAD_UNLOCKED : Z -> FILE -> W -> list byte * W;
  SQUASH_FWRITE_UNLOCKED : list byte -> Z -> FILE -> W -> Z * W;
  feof : FILE -> W -> bool;
  getenv : string -> W -> option string;
  squash_mapped_file_empty : SquashMappedFile;
  (** [squash_mapped_file_init (&mapped, fp, length, writable)] *)
  squash_mapped_file_init :
    SquashMappedFile -> FILE -> Z -> bool -> W -> (bool * SquashMappedFile) * W;
  (** [squash_mapped_file_destroy (&mapped, success)] *)
  squash_mapped_file_destroy :
    SquashMappedFile -> bool -> W -> SquashMappedFile * W;
  squash_file_steal_codec_with_options :
    SquashCodec -> FILE -> SquashOptions -> W -> option SquashFile * W;
  squash_file_write : SquashFile -> Z -> list byte -> W -> SquashStatus * W;
  squash_file_read : SquashFile -> Z -> W -> (SquashStatus * list byte) * W;
  squash_file_free : option SquashFile -> W -> W;
  (** [#define SQUASH_FILE_BUF_SIZE], from squash/file.c. *)
  SQUASH_FILE_BUF_SIZE : Z;
  (** The codec registry and the parser of the variadic options. *)
  squash_get_codec : string -> option SquashCodec;
  squash_options_newv : SquashCodec -> va_list -> SquashOptions
}.

Context {X : Externals}.

(** ** [squash_splice_custom_codec_with_options]: the stream loop *)

Section StreamLoop.
Context {U : Type}.
Variable codec : SquashCodec.
Variable write_cb : SquashWriteFunc U.
Variable read_cb : SquashReadFunc U.
Variable length : Z.
Variable limit_input limit_output : bool.

(** [while (write_remaining != 0)]: every call hands [out_buf] itself to
    the callback; a negative [res2] leaves the loop and is dropped. *)
Fixpoint stream_write_loop (fuel : nat) (out_buf : list byte)
         (write_remaining : Z) (u : U) (w : W) : option (U * W) :=
  match fuel with
  | O => None
  | S fuel' =>
      if write_remaining =? 0 then Some (u, w)
      else
        let '((res2, written), (u, w)) :=
          write_cb write_remaining out_buf u w in
        if status_neg res2 then Some (u, w)
        else
          stream_write_loop fuel' out_buf (sub_sz write_remaining written) u w
  end.

(** The inner [do ... while (res == SQUASH_PROCESSING)]. *)
Fixpoint stream_process_loop (fuel : nat) (stream : SquashStream) (eof : bool)
         (in_buf out_buf : list byte) (u : U) (w : W)
  : option ((SquashStatus * SquashStream * bool * list byte) * (U * W)) :=
  match fuel with
  | O => None
  | S fuel' =>
      let stream := set_out stream 0 SQUASH_SPLICE_BUF_SIZE in
      let '((res, stream, out_buf), w) :=
        if eof
        then squash_stream_finish codec stream in_buf out_buf w
        else squash_stream_process codec stream in_buf out_buf w in
      if status_neg res then Some ((res, stream, eof, out_buf), (u, w))
      else
        let write_remaining := sub_sz SQUASH_SPLICE_BUF_SIZE (avail_out stream) in
        let over := limit_output && (total_out stream >? length) in
        let overrun := sub_sz (total_out stream) length in
        (* assert (overrun < SQUASH_SPLICE_BUF_SIZE); *)
        if over && negb NDEBUG && negb (overrun <? SQUASH_SPLICE_BUF_SIZE)
        then None
        else
          let write_remaining :=
            if over then sub_sz write_remaining overrun else write_remaining in
          let res := if over then SQUASH_OK else res in
          let eof := if over then true else eof in
          match stream_write_loop fuel out_buf write_remaining u w with
          | None => None
          | Some (u, w) =>
              if status_eqb res SQUASH_PROCESSING
              then stream_process_loop fuel' stream eof in_buf out_buf u w
              else Some ((res, stream, eof, out_buf), (u, w))
          end
  end.

(** The outer [do ... while (res == SQUASH_OK && !eof)]; the result is [res]
    and the cursors when the loop is left. *)
Fixpoint stream_read_loop (fuel : nat) (stream : SquashStream) (eof : bool)
         (in_buf out_buf : list byte) (u : U) (w : W)
  : option ((SquashStatus * SquashStream) * (U * W)) :=
  match fuel with
  | O => None
  | S fuel' =>
      let avail :=
        if limit_input then
          let a := sub_sz length (total_in stream) in
          if a >? SQUASH_SPLICE_BUF_SIZE then SQUASH_SPLICE_BUF_SIZE else a
        else SQUASH_SPLICE_BUF_SIZE in
      let '((res, data), (u, w)) := read_cb avail u w in
      let stream := set_in stream 0 (zlen data) in
      let in_buf := blit data in_buf in
      if status_neg res then Some ((res, stream), (u, w))
      else
        let eof := if status_eqb res SQUASH_END_OF_STREAM then true else eof in
        match stream_process_loop fuel stream eof in_buf out_buf u w with
        | None => None
        | Some ((res, stream, eof, out_buf), (u, w)) =>
            if status_eqb res SQUASH_OK && negb eof
            then stream_read_loop fuel' stream eof in_buf out_buf u w
            else Some ((res, stream), (u, w))
        end
  end.

(** The branch [else if (codec->impl.process_stream)].  The scratch buffers
    start out as [scratch], whatever [malloc] left in them. *)
Definition splice_stream_loop (fuel : nat) (stream_type : SquashStreamType)
           (options : SquashOptions) (scratch : list byte) (u : U) (w : W)
  : option (SquashStatus * (U * W)) :=
  let '(stream, w) :=
    squash_stream_new_codec_with_options codec stream_type options w in
  match stream with
  | None => Some (squash_error SQUASH_FAILED, (u, w))
  | Some stream =>
      let '(in_ok, w) := malloc SQUASH_SPLICE_BUF_SIZE w in
      let '(out_ok, w) := malloc SQUASH_SPLICE_BUF_SIZE w in
      if negb in_ok || negb out_ok
      then Some (squash_error SQUASH_MEMORY, (u, w))
      else
        match stream_read_loop fuel stream false scratch scratch u w with
        | None => None
        | Some ((res, _), uw) =>
            Some (if status_eqb res SQUASH_END_OF_STREAM then SQUASH_OK else res, uw)
        end
  end.

End StreamLoop.

(** ** [squash_splice_custom_codec_with_options]: the one-shot accumulator *)

Section Accumulator.
Context {U : Type}.
Variable codec : SquashCodec.
Variable write_cb : SquashWriteFunc U.
Variable read_cb : SquashReadFunc U.
Variable length : Z.
Variable limit_input limit_output : bool.
Variable options : SquashOptions.

(** "Read all data into `buffer'."  [inl res] is a [return res] out of the
    function, [inr buffer] the buffer once [eof] is set;
    [buffer->length] is the length of the list. *)
Fixpoint accumulate_input (fuel : nat) (buffer : list byte) (u : U) (w : W)
  : option ((SquashStatus + list byte) * (U * W)) :=
  match fuel with
  | O => None
  | S fuel' =>
      let old_size := zlen buffer in
      let read_request :=
        if limit_input then sub_sz length old_size else SQUASH_SPLICE_BUF_SIZE in
      let '(ok, w) := squash_buffer_set_size (add_sz old_size read_request) w in
      if negb ok then Some (inl (squash_error SQUASH_MEMORY), (u, w))
      else
        let '((res, data), (u, w)) := read_cb read_request u w in
        if status_neg res then Some (inl res, (u, w))
        else
          (* assert (bytes_read <= read_request); *)
          let buffer := buffer ++ data in
          if status_eqb res SQUASH_END_OF_STREAM
             || (limit_input && (zlen buffer =? length))
          then Some (inr buffer, (u, w))
          else accumulate_input fuel' buffer u w
  end.

(** The [do ... while (res == SQUASH_BUFFER_FULL)] of a codec that does
    not know the uncompressed size.  [inl res] is a
    [goto cleanup_buffer]; [inr (res, out_data_size, out_data)] leaves
    the loop.  [out_data] is the block as [malloc] returned it, with the
    bytes the codec stored at its start. *)
Fixpoint decompress_growing (fuel : nat) (out_data_size : Z)
         (buffer : list byte) (w : W)
  : option ((SquashStatus + (SquashStatus * Z * list byte)) * W) :=
  match fuel with
  | O => None
  | S fuel' =>
      let c := out_data_size in
      let '(ok, w) := malloc c w in
      if negb ok then Some (inl (squash_error SQUASH_MEMORY), w)
      else
        let out_data := malloc_data c w in
        let '((res, c, stored), w) :=
          squash_codec_decompress_with_options codec c (zlen buffer) buffer options w in
        let out_data := blit stored out_data in
        if status_eqb res SQUASH_BUFFER_FULL
        then decompress_growing fuel' (shl_sz out_data_size 1) buffer w
        else if status_eqb res SQUASH_OK
             then Some (inr (res, c, out_data), w)
             else Some (inr (res, out_data_size, out_data), w)
  end.

(** "Process (compress or decompress) the data." *)
Definition transform_buffer (fuel : nat) (stream_type : SquashStreamType)
           (buffer : list byte) (w : W)
  : option ((SquashStatus + (SquashStatus * Z * list byte)) * W) :=
  match stream_type with
  | SQUASH_STREAM_COMPRESS =>
      let out_data_size :=
        squash_codec_get_max_compressed_size codec (zlen buffer) in
      let '(ok, w) := malloc out_data_size w in
      if negb ok then Some (inl (squash_error SQUASH_MEMORY), w)
      else
        let out_data := malloc_data out_data_size w in
        let '((res, out_data_size, stored), w) :=
          squash_codec_compress_with_options
            codec out_data_size (zlen buffer) buffer options w in
        let out_data := blit stored out_data in
        if negb (status_eqb res SQUASH_OK) then Some (inl res, w)
        else Some (inr (res, out_data_size, out_data), w)
  | SQUASH_STREAM_DECOMPRESS =>
      if knows_uncompressed_size codec then
        let out_data_size :=
          squash_codec_get_uncompressed_size codec (zlen buffer) buffer in
        if out_data_size =? 0
        then Some (inl (squash_error SQUASH_INVALID_BUFFER), w)
        else
          let '(ok, w) := malloc out_data_size w in
          if negb ok then Some (inl (squash_error SQUASH_MEMORY), w)
          else
            let out_data := malloc_data out_data_size w in
            let '((res, out_data_size, stored), w) :=
              squash_codec_decompress_with_options
                codec out_data_size (zlen buffer) buffer options w in
            Some (inr (res, out_data_size, blit stored out_data), w)
      else
        decompress_growing
          fuel (shl_sz (squash_npot (zlen buffer)) 3) buffer w
  end.

(** The final [do ... while (bytes_written != out_data_size)]. *)
Fixpoint drain_output (fuel : nat) (out_data : list byte)
         (out_data_size bytes_written : Z) (u : U) (w : W)
  : option (SquashStatus * (U * W)) :=
  match fuel with
  | O => None
  | S fuel' =>
      let wlen := sub_sz out_data_size bytes_written in
      let '((res, wlen), (u, w)) :=
        write_cb wlen (skipn (Z.to_nat bytes_written) out_data) u w in
      if negb (status_eqb res SQUASH_OK) then Some (res, (u, w))
      else
        let bytes_written := add_sz bytes_written wlen in
        if bytes_written =? out_data_size then Some (res, (u, w))
        else drain_output fuel' out_data out_data_size bytes_written u w
  end.

(** The last [else] branch. *)
Definition splice_accumulator (fuel : nat) (stream_type : SquashStreamType)
           (u : U) (w : W) : option (SquashStatus * (U * W)) :=
  match accumulate_input fuel [] u w with
  | None => None
  | Some (inl res, uw) => Some (res, uw)
  | Some (inr buffer, (u, w)) =>
      match transform_buffer fuel stream_type buffer w with
      | None => None
      | Some (inl res, w) => Some (res, (u, w))
      | Some (inr (_, out_data_size, out_data), w) =>
          let out_data_size :=
            if limit_output && (out_data_size >? length)
            then length else out_data_size in
          drain_output fuel out_data out_data_size 0 u w
      end
  end.

End Accumulator.

(** ** The file callbacks *)


(** [struct SquashFileSpliceData].  Its [codec] member is never read and is
    left out. *)
Record SquashFileSpliceData : Type := mkFileData {
  fp_in : FILE;
  fp_out : FILE;
  file_length : Z;
  file_pos : Z;
  file_stream_type : SquashStreamType;
  file_options : SquashOptions
}.

Definition set_file_pos (ctx : SquashFileSpliceData) (p : Z) :=
  mkFileData (fp_in ctx) (fp_out ctx) (file_length ctx) p
             (file_stream_type ctx) (file_options ctx).

(** [squash_file_splice_read] *)
Definition squash_file_splice_read : SquashReadFunc SquashFileSpliceData :=
  fun data_length ctx w =>
    let limited :=
      stream_type_eqb (file_stream_type ctx) SQUASH_STREAM_COMPRESS
      && negb (file_length ctx =? 0) in
    let remaining := sub_sz (file_length ctx) (file_pos ctx) in
    if limited && (remaining =? 0) then
      ((SQUASH_END_OF_STREAM, []), (ctx, w))
    else
      let requested :=
        if limited
        then (if data_length <? remaining then data_length else remaining)
        else data_length (* assert (requested != 0); *) in
      let '(data, w) := SQUASH_FREAD_UNLOCKED requested (fp_in ctx) w in
      let bytes_read := zlen data in
      let ctx := set_file_pos ctx (add_sz (file_pos ctx) bytes_read) in
      if bytes_read =? 0 then
        ((if feof (fp_in ctx) w
          then SQUASH_END_OF_STREAM else squash_error SQUASH_IO, data), (ctx, w))
      else ((SQUASH_OK, data), (ctx, w)).

(** [squash_file_splice_write] *)
Definition squash_file_splice_write : SquashWriteFunc SquashFileSpliceData :=
  fun data_length data ctx w =>
    let requested := data_length in
    let '(data_length, w) :=
      SQUASH_FWRITE_UNLOCKED data requested (fp_out ctx) w in
    ((if data_length =? requested then SQUASH_OK else squash_error SQUASH_IO,
      data_length), (ctx, w)).

(** The cast of [user_data] to a pointer to [struct SquashFileSpliceData]:
    the user data looked at as a [SquashFileSpliceData], and written
    back. *)
Record FileSpliceCast (U : Type) : Type := mkCast {
  cast_get : U -> SquashFileSpliceData;
  cast_put : U -> SquashFileSpliceData -> U
}.

Definition cast_id : FileSpliceCast SquashFileSpliceData :=
  mkCast (fun d => d) (fun _ d => d).

Definition cast_read {U} (cast : FileSpliceCast U)
           (f : SquashReadFunc SquashFileSpliceData) : SquashReadFunc U :=
  fun data_length u w =>
    let '(r, (d, w)) := f data_length (cast_get cast u) w in
    (r, (cast_put cast u d, w)).

Definition cast_write {U} (cast : FileSpliceCast U)
           (f : SquashWriteFunc SquashFileSpliceData) : SquashWriteFunc U :=
  fun data_length data u w =>
    let '(r, (d, w)) := f data_length data (cast_get cast u) w in
    (r, (cast_put cast u d, w)).

(** What [ctx.user_data] points to once the native splice has returned. *)
Definition caller_data {U} (ctx : SquashSpliceLimitedData U) : U :=
  user_data ctx.

(** ** [squash_splice_custom_codec_with_options]

    [cast], [fuel] and [scratch] belong to the model: how the callbacks of
    the native branch read the user data, the bound on the loops, the
    first contents of the scratch buffers. *)
Definition squash_splice_custom_codec_with_options {U}
           (cast : FileSpliceCast U) (fuel : nat) (scratch : list byte)
           (codec : SquashCodec) (stream_type : SquashStreamType)
           (write_cb : SquashWriteFunc U) (read_cb : SquashReadFunc U)
           (user_data : U) (length : Z) (options : SquashOptions) (w : W)
  : option (SquashStatus * (U * W)) :=
  let limit_input :=
    stream_type_eqb stream_type SQUASH_STREAM_COMPRESS && negb (length =? 0) in
  let limit_output :=
    stream_type_eqb stream_type SQUASH_STREAM_DECOMPRESS && negb (length =? 0) in
  match impl_splice codec with
  | Some splice =>
      if length =? 0 then
        Some (splice U options stream_type
                     (cast_read cast squash_file_splice_read)
                     (cast_write cast squash_file_splice_write)
                     user_data w)
      else
        let ctx := mkLimited write_cb read_cb user_data stream_type length 0 in
        let '(res, (ctx, w)) :=
          splice (SquashSpliceLimitedData U) options stream_type
                 squash_splice_custom_limited_read
                 squash_splice_custom_limited_write
                 ctx w in
        Some (res, (caller_data ctx, w))
  | None =>
      if impl_process_stream codec then
        splice_stream_loop codec write_cb read_cb length limit_input limit_output
                           fuel stream_type options scratch user_data w
      else
        splice_accumulator codec write_cb read_cb length limit_input limit_output
                           options fuel stream_type user_data w
  end.

(** [squash_file_splice] *)
Definition squash_file_splice (fuel : nat) (scratch : list byte)
           (fp_in fp_out : FILE) (length : Z) (stream_type : SquashStreamType)
           (codec : SquashCodec) (options : SquashOptions) (w : W)
  : option (SquashStatus * W) :=
  let data := mkFileData fp_in fp_out length 0 stream_type options in
  match squash_splice_custom_codec_with_options
          cast_id fuel scratch codec stream_type
          squash_file_splice_write squash_file_splice_read data length options w
  with
  | None => None
  | Some (res, (_, w)) => Some (res, w)
  end.

(** ** [squash_splice_map]: the mapped-file one-shot path *)


(** The [do ... while (!knows_uncompressed && res == SQUASH_BUFFER_FULL)]
    of the decompression branch; the result is the state at [cleanup]. *)
Fixpoint map_decompress_loop (fuel : nat) (codec : SquashCodec)
         (options : SquashOptions) (knows_uncompressed : bool) (fp_out : FILE)
         (mapped_in mapped_out : SquashMappedFile) (max_output_length : Z)
         (res : SquashStatus) (w : W)
  : option ((SquashStatus * SquashMappedFile * SquashMappedFile) * W) :=
  match fuel with
  | O => None
  | S fuel' =>
      let '((ok, mapped_out), w) :=
        squash_mapped_file_init mapped_out fp_out max_output_length true w in
      if negb ok then Some ((res, mapped_in, mapped_out), w)
      else
        let '((res, out_length, out), w) :=
          squash_codec_decompress_with_options
            codec (map_length mapped_out) (map_length mapped_in)
            (map_data mapped_in) options w in
        let mapped_out := mkMapped out out_length in
        let '(mapped_in, mapped_out, max_output_length, w) :=
          if status_eqb res SQUASH_OK then
            let '(mapped_in, w) := squash_mapped_file_destroy mapped_in true w in
            let '(mapped_out, w) := squash_mapped_file_destroy mapped_out true w in
            (mapped_in, mapped_out, max_output_length, w)
          else
            (mapped_in, mapped_out, shl_sz max_output_length 1, w) in
        if negb knows_uncompressed && status_eqb res SQUASH_BUFFER_FULL
        then map_decompress_loop fuel' codec options knows_uncompressed fp_out
                                 mapped_in mapped_out max_output_length res w
        else Some ((res, mapped_in, mapped_out), w)
  end.

Definition squash_splice_map (fuel : nat) (fp_in fp_out : FILE) (length : Z)
           (stream_type : SquashStreamType) (codec : SquashCodec)
           (options : SquashOptions) (w : W) : option (SquashStatus * W) :=
  let res := SQUASH_FAILED in
  let mapped_in := squash_mapped_file_empty in
  let mapped_out := squash_mapped_file_empty in
  let at_cleanup :=
    match stream_type with
    | SQUASH_STREAM_COMPRESS =>
        let '((ok, mapped_in), w) :=
          squash_mapped_file_init mapped_in fp_in length false w in
        if negb ok then Some ((res, mapped_in, mapped_out), w)
        else
          let max_output_length :=
            squash_codec_get_max_compressed_size codec (map_length mapped_in) in
          let '((ok, mapped_out), w) :=
            squash_mapped_file_init mapped_out fp_out max_output_length true w in
          if negb ok then Some ((res, mapped_in, mapped_out), w)
          else
            let '((res, out_length, out), w) :=
              squash_codec_compress_with_options
                codec (map_length mapped_out) (map_length mapped_in)
                (map_data mapped_in) options w in
            let mapped_out := mkMapped out out_length in
            if negb (status_eqb res SQUASH_OK)
            then Some ((res, mapped_in, mapped_out), w)
            else
              let '(mapped_in, w) := squash_mapped_file_destroy mapped_in true w in
              let '(mapped_out, w) := squash_mapped_file_destroy mapped_out true w in
              Some ((res, mapped_in, mapped_out), w)
    | SQUASH_STREAM_DECOMPRESS =>
        let '((ok, mapped_in), w) :=
          squash_mapped_file_init mapped_in fp_in 0 false w in
        if negb ok then Some ((res, mapped_in, mapped_out), w)
        else
          let knows_uncompressed := knows_uncompressed_size codec in
          let max_output_length :=
            if knows_uncompressed
            then squash_codec_get_uncompressed_size
                   codec (map_length mapped_in) (map_data mapped_in)
            else shl_sz (squash_npot (map_length mapped_in)) 3 in
          map_decompress_loop fuel codec options knows_uncompressed fp_out
                              mapped_in mapped_out max_output_length res w
    end in
  match at_cleanup with
  | None => None
  | Some ((res, mapped_in, mapped_out), w) =>
      let '(_, w) := squash_mapped_file_destroy mapped_in false w in
      let '(_, w) := squash_mapped_file_destroy mapped_out false w in
      Some (res, w)
  end.

(** ** [squash_splice_stream], built without [SQUASH_MMAP_IO] *)


Definition stream_request (length remaining : Z) : Z :=
  if (length =? 0) || (remaining >? SQUASH_FILE_BUF_SIZE)
  then SQUASH_FILE_BUF_SIZE else remaining.

(** [while (length == 0 || remaining != 0)], compressing. *)
Fixpoint stream_compress_loop (fuel : nat) (file : SquashFile) (fp_in : FILE)
         (length remaining : Z) (res : SquashStatus) (w : W)
  : option (SquashStatus * W) :=
  match fuel with
  | O => None
  | S fuel' =>
      if (length =? 0) || negb (remaining =? 0) then
        let req_size := stream_request length remaining in
        let '(data, w) := SQUASH_FREAD_UNLOCKED req_size fp_in w in
        let data_length := zlen data in
        if data_length =? 0 then
          Some (if feof fp_in w then SQUASH_OK else squash_error SQUASH_IO, w)
        else
          let '(res, w) := squash_file_write file data_length data w in
          if negb (status_eqb res SQUASH_OK) then Some (res, w)
          else
            (* assert (data_length <= remaining); *)
            let remaining :=
              if remaining =? 0 then remaining else sub_sz remaining data_length in
            stream_compress_loop fuel' file fp_in length remaining res w
      else Some (res, w)
  end.

(** [while (length == 0 || remaining != 0)], decompressing. *)
Fixpoint stream_decompress_loop (fuel : nat) (file : SquashFile) (fp_out : FILE)
         (length remaining : Z) (res : SquashStatus) (w : W)
  : option (SquashStatus * W) :=
  match fuel with
  | O => None
  | S fuel' =>
      if (length =? 0) || negb (remaining =? 0) then
        let data_length := stream_request length remaining in
        let '((res, data), w) := squash_file_read file data_length w in
        let data_length := zlen data in
        if status_neg res then Some (res, w)
        else
          let res := if status_eqb res SQUASH_PROCESSING then SQUASH_OK else res in
          let '(stop, remaining, w) :=
            if data_length >? 0 then
              let '(bytes_written, w) :=
                SQUASH_FWRITE_UNLOCKED data data_length fp_out w in
              (* assert (bytes_written == data_length); *)
              if bytes_written =? 0 then (true, remaining, w)
              else
                (* assert (data_length <= remaining); *)
                (false,
                 if remaining =? 0 then remaining else sub_sz remaining data_length,
                 w)
            else (false, remaining, w) in
          if stop then Some (squash_error SQUASH_IO, w)
          else if status_eqb res SQUASH_END_OF_STREAM then Some (SQUASH_OK, w)
          else stream_decompress_loop fuel' file fp_out length remaining res w
      else Some (res, w)
  end.

Definition squash_splice_stream (fuel : nat) (fp_in fp_out : FILE) (length : Z)
           (stream_type : SquashStreamType) (codec : SquashCodec)
           (options : SquashOptions) (w : W) : option (SquashStatus * W) :=
  let res := SQUASH_FAILED in
  let remaining := length in
  let at_cleanup :=
    if negb (status_eqb res SQUASH_OK) then
      let '(file, w) :=
        squash_file_steal_codec_with_options
          codec
          (match stream_type with
           | SQUASH_STREAM_COMPRESS => fp_out
           | SQUASH_STREAM_DECOMPRESS => fp_in
           end)
          options w in
      match file with
      | None => Some (squash_error SQUASH_FAILED, file, w)
      | Some f =>
          let '(ok, w) := malloc SQUASH_FILE_BUF_SIZE w in
          if negb ok then Some (squash_error SQUASH_MEMORY, file, w)
          else
            match
              match stream_type with
              | SQUASH_STREAM_COMPRESS =>
                  stream_compress_loop fuel f fp_in length remaining res w
              | SQUASH_STREAM_DECOMPRESS =>
                  stream_decompress_loop fuel f fp_out length remaining res w
              end
            with
            | None => None
            | Some (res, w) => Some (res, file, w)
            end
      end
    else Some (res, None, w) in
  match at_cleanup with
  | None => None
  | Some (res, file, w) => Some (res, squash_file_free file w)
  end.

(** ** The mmap preference *)


(** The two statics of splice.c: [squash_splice_detect_once] (whether the
    [once_flag] has fired) and [squash_splice_try_mmap]. *)
Record SpliceStatics : Type := mkStatics {
  squash_splice_detect_once : bool;
  squash_splice_try_mmap : Z
}.

(** [ONCE_FLAG_INIT] and [squash_splice_try_mmap = 0]. *)
Definition statics_at_start : SpliceStatics := mkStatics false 0.

(** [squash_splice_detect_enable]: the value it stores in
    [squash_splice_try_mmap]. *)
Definition squash_splice_detect_enable (w : W) : Z :=
  match getenv "SQUASH_MAP_SPLICE" w with
  | None => 2
  | Some ev =>
      if String.eqb ev "yes" then 2
      else if String.eqb ev "always" then 3
      else if String.eqb ev "no" then 1
      else 2
  end.

(** [call_once (&squash_splice_detect_once, squash_splice_detect_enable)] *)
Definition call_once_detect (g : SpliceStatics) (w : W) : SpliceStatics :=
  if squash_splice_detect_once g then g
  else mkStatics true (squash_splice_detect_enable w).

(** The condition under which the dispatcher calls [squash_splice_map]. *)
Definition splice_tries_map (g : SpliceStatics) (codec : SquashCodec) : bool :=
  (squash_splice_try_mmap g =? 3)
  || ((squash_splice_try_mmap g =? 2) && negb (impl_create_stream codec)).

(** ** [squash_splice_codec_with_options] and the other entry points *)

Definition squash_splice_codec_with_options (fuel : nat) (scratch : list byte)
           (codec : SquashCodec) (stream_type : SquashStreamType)
           (fp_out fp_in : FILE) (length : Z) (options : SquashOptions)
           (g : SpliceStatics) (w : W)
  : option (SquashStatus * (SpliceStatics * W)) :=
  let res := SQUASH_FAILED in
  let g := call_once_detect g w in
  let result :=
    match impl_splice codec with
    | Some _ =>
        squash_file_splice fuel scratch fp_in fp_out length stream_type codec options w
    | None =>
        match
          if splice_tries_map g codec
          then squash_splice_map fuel fp_in fp_out length stream_type codec options w
          else Some (res, w)
        with
        | None => None
        | Some (res, w) =>
            if negb (status_eqb res SQUASH_OK)
            then squash_splice_stream fuel fp_in fp_out length stream_type codec options w
            else Some (res, w)
        end
    end in
  match result with
  | None => None
  | Some (res, w) => Some (res, (g, w))
  end.


Definition squash_splice (fuel : nat) (scratch : list byte)
           (codec : string) (stream_type : SquashStreamType)
           (fp_out fp_in : FILE) (length : Z) (ap : va_list)
           (g : SpliceStatics) (w : W)
  : option (SquashStatus * (SpliceStatics * W)) :=
  match squash_get_codec codec with
  | None => Some (squash_error SQUASH_BAD_PARAM, (g, w))
  | Some codec_i =>
      let options := squash_options_newv codec_i ap in
      squash_splice_codec_with_options
        fuel scratch codec_i stream_type fp_out fp_in length options g w
  end.

Definition squash_splice_codec (fuel : nat) (scratch : list byte)
           (codec : SquashCodec) (stream_type : SquashStreamType)
           (fp_out fp_in : FILE) (length : Z) (ap : va_list)
           (g : SpliceStatics) (w : W)
  : option (SquashStatus * (SpliceStatics * W)) :=
  let options := squash_options_newv codec ap in
  squash_splice_codec_with_options
    fuel scratch codec stream_type fp_out fp_in length options g w.

Definition squash_splice_with_options (fuel : nat) (scratch : list byte)
           (codec : string) (stream_type : SquashStreamType)
           (fp_out fp_in : FILE) (length : Z) (options : SquashOptions)
           (g : SpliceStatics) (w : W)
  : option (SquashStatus * (SpliceStatics * W)) :=
  match squash_get_codec codec with
  | None => Some (squash_error SQUASH_BAD_PARAM, (g, w))
  | Some codec_i =>
      squash_splice_codec_with_options
        fuel scratch codec_i stream_type fp_out fp_in length options g w
  end.

End Model.

(** * The snappy plugin (plugins/snappy/squash-snappy.c)

    [snappy_status] and the four functions of the snappy library the plugin
    calls come from snappy-c.h, which is not part of Squash; the functions
    are taken as they come.  A function that stores a length through a
    pointer receives the length found there and returns the one it leaves. *)

Inductive snappy_status : Type :=
| SNAPPY_OK
| SNAPPY_INVALID_INPUT
| SNAPPY_BUFFER_TOO_SMALL.

Class SnappyLibrary : Type := {
  snappy_max_compressed_length : Z -> Z;
  (** [(compressed, compressed_length, &result)] *)
  snappy_uncompressed_length : list byte -> Z -> Z -> snappy_status * Z;
  (** [(compressed, compressed_length, uncompressed, &uncompressed_length)] *)
  snappy_uncompress : list byte -> Z -> Z -> snappy_status * Z * list byte;
  (** [(input, input_length, compressed, &compressed_length)] *)
  snappy_compress : list byte -> Z -> Z -> snappy_status * Z * list byte
}.

Section SnappyPlugin.

Context {L : SnappyLibrary}.

(** [squash_snappy_get_max_compressed_size] *)
Definition squash_snappy_get_max_compressed_size (uncompressed_length : Z) : Z :=
  snappy_max_compressed_length uncompressed_length.

(** [squash_snappy_get_uncompressed_size]: [uncompressed_size] starts at 0
    and the status of the library call is not looked at. *)
Definition squash_snappy_get_uncompressed_size
           (compressed : list byte) (compressed_length : Z) : Z :=
  let uncompressed_size := 0 in
  let '(_, uncompressed_size) :=
    snappy_uncompressed_length compressed compressed_length uncompressed_size in
  uncompressed_size.

(** [squash_snappy_status] *)
Definition squash_snappy_status (status : snappy_status) : SquashStatus :=
  match status with
  | SNAPPY_OK => SQUASH_OK
  | SNAPPY_BUFFER_TOO_SMALL => SQUASH_BUFFER_FULL
  | _ => SQUASH_FAILED
  end.

(** [squash_snappy_decompress_buffer]: the length found in
    [*decompressed_length], the compressed bytes and their number. *)
Definition squash_snappy_decompress_buffer
           (decompressed_length : Z) (compressed : list byte) (compressed_length : Z)
  : SquashStatus * Z * list byte :=
  let '(e, decompressed_length, decompressed) :=
    snappy_uncompress compressed compressed_length decompressed_length in
  (squash_snappy_status e, decompressed_length, decompressed).

(** [squash_snappy_compress_buffer] *)
Definition squash_snappy_compress_buffer
           (compressed_length : Z) (uncompressed : list byte) (uncompressed_length : Z)
  : SquashStatus * Z * list byte :=
  let '(e, compressed_length, compressed) :=
    snappy_compress uncompressed uncompressed_length compressed_length in
  (squash_snappy_status e, compressed_length, compressed).

(** The members of [SquashCodecFuncs] the plugin assigns; [None] is a NULL
    function pointer. *)
Record SquashCodecFuncs : Type := mkFuncs {
  get_uncompressed_size : option (list byte -> Z -> Z);
  get_max_compressed_size : option (Z -> Z);
  decompress_buffer : option (Z -> list byte -> Z -> SquashStatus * Z * list byte);
  compress_buffer : option (Z -> list byte -> Z -> SquashStatus * Z * list byte)
}.

(** [squash_plugin_init_codec]; [name] is [squash_codec_get_name (codec)]. *)
Definition squash_plugin_init_codec (name : string) (funcs : SquashCodecFuncs)
  : SquashStatus * SquashCodecFuncs :=
  if String.eqb "snappy" name then
    (SQUASH_OK,
     mkFuncs (Some squash_snappy_get_uncompressed_size)
             (Some squash_snappy_get_max_compressed_size)
             (Some squash_snappy_decompress_buffer)
             (Some squash_snappy_compress_buffer))
  else (SQUASH_UNABLE_TO_LOAD, funcs).

End SnappyPlugin.

(** * A platform to run the model on

    The world is the list of the calls made to the outside, the latest
    first.  Files, options and variadic lists carry nothing; the one file
    that matters to an example is named by a boolean ([true] for the
    source). *)

Inductive Call : Type :=
| CallMalloc (n : Z)
| CallSetSize (n : Z)
| CallMapInit (n : Z) (writable : bool)
| CallMapDestroy (commit : bool)
| CallCompress (capacity : Z)
| CallDecompress (capacity : Z)
| CallProcess (finish : bool) (input : list byte)
| CallFread (n : Z)
| CallFwrite (data : list byte)
| CallFileSteal
| CallFileRead (n : Z)
| CallFileWrite (data : list byte)
| CallFileFree.

#[local] Instance log_platform : Platform := {|
  W := list Call;
  FILE := bool;
  SquashOptions := unit;
  SquashFile := unit;
  va_list := unit
|}.

(** The capacities handed to [decompress_buffer], in the order of the
    calls. *)
Definition decompress_capacities (w : list Call) : list Z :=
  flat_map (fun c => match c with CallDecompress n => [n] | _ => [] end) (rev w).

(** Modelled from the spec: [squash_npot] is not among the sources.  The
    model takes it as it comes; the examples run with the next power of two,
    in a [size_t]. *)
Definition next_power_of_two (n : Z) : Z :=
  if n <=? 0 then 0 else to_size_t (2 ^ Z.log2_up n).

(** The number of bytes [fread] has handed out so far. *)
Definition bytes_read_so_far (w : list Call) : Z :=
  fold_right (fun c acc => match c with CallFread n => n + acc | _ => acc end) 0 w.

(** The externals of the examples: every allocation and mapping succeeds
    and a fresh block is filled with question marks, assertions are on, the
    source file holds [source], the environment holds at most
    SQUASH_MAP_SPLICE, and every call is logged. *)
Definition log_externals (env : option string) (source : list byte)
           (registry : string -> option SquashCodec) : Externals := {|
  malloc := fun n w => (true, CallMalloc n :: w);
  malloc_data := fun n w => repeat "?"%byte (Z.to_nat n);
  NDEBUG := false;
  squash_buffer_set_size := fun n w => (true, CallSetSize n :: w);
  squash_npot := next_power_of_two;
  SQUASH_FREAD_UNLOCKED := fun n (fp : FILE) w =>
    let data := firstn (Z.to_nat n) (skipn (Z.to_nat (bytes_read_so_far w)) source) in
    (data, CallFread (zlen data) :: w);
  SQUASH_FWRITE_UNLOCKED := fun data n (fp : FILE) w =>
    (n, CallFwrite (firstn (Z.to_nat n) data) :: w);
  feof := fun (fp : FILE) w => zlen source <=? bytes_read_so_far w;
  getenv := fun name w => if String.eqb name "SQUASH_MAP_SPLICE" then env else None;
  squash_mapped_file_empty := mkMapped [] 0;
  squash_mapped_file_init := fun m (fp : FILE) n writable w =>
    ((true, if writable then mkMapped [] n else mkMapped source (zlen source)),
     CallMapInit n writable :: w);
  squash_mapped_file_destroy := fun m commit w =>
    (mkMapped [] 0, CallMapDestroy commit :: w);
  squash_file_steal_codec_with_options := fun codec (fp : FILE) options w =>
    (Some tt, CallFileSteal :: w);
  squash_file_write := fun f n data w =>
    (SQUASH_OK, CallFileWrite (firstn (Z.to_nat n) data) :: w);
  squash_file_read := fun f n w =>
    ((SQUASH_END_OF_STREAM, []), CallFileRead n :: w);
  squash_file_free := fun f w => CallFileFree :: w;
  SQUASH_FILE_BUF_SIZE := 1048576;
  squash_get_codec := registry;
  squash_options_newv := fun codec ap => tt
|}.

(** A codec with buffer functions only.  It stores its input unchanged;
    decompressing needs room for [need] bytes and answers BUFFER_FULL when
    given less; asked for the uncompressed size it reports [reported]. *)
Definition buffer_codec (info reported need : Z) : SquashCodec := {|
  impl_splice := None;
  impl_process_stream := false;
  impl_create_stream := false;
  squash_codec_get_info := info;
  squash_codec_get_max_compressed_size := fun n => n;
  squash_codec_get_uncompressed_size := fun n data => reported;
  squash_codec_compress_with_options := fun capacity n data options w =>
    ((if capacity <? n then SQUASH_BUFFER_FULL else SQUASH_OK, n, data),
     CallCompress capacity :: w);
  squash_codec_decompress_with_options := fun capacity n data options w =>
    (if capacity <? need
     then (SQUASH_BUFFER_FULL, capacity, [])
     else (SQUASH_OK, zlen data, data),
     CallDecompress capacity :: w);
  squash_stream_new_codec_with_options := fun st options w => (None, w);
  squash_stream_process := fun s in_buf out_buf w => ((SQUASH_FAILED, s, out_buf), w);
  squash_stream_finish := fun s in_buf out_buf w => ((SQUASH_FAILED, s, out_buf), w)
|}.

(** One step of a stream that copies its input to its output, as much as
    the output buffer takes, and asks to be called again (PROCESSING) when
    input is left over. *)
Definition copy_step (finish : bool)
           (s : SquashStream) (in_buf out_buf : list byte) (w : list Call)
  : (SquashStatus * SquashStream * list byte) * list Call :=
  let n := Z.max 0 (Z.min (avail_in s) (avail_out s)) in
  let input := firstn (Z.to_nat n) (skipn (Z.to_nat (next_in s)) in_buf) in
  ((if avail_in s - n >? 0 then SQUASH_PROCESSING else SQUASH_OK,
    mkStream (next_in s + n) (avail_in s - n) (total_in s + n)
             (next_out s + n) (avail_out s - n) (total_out s + n),
    blit input out_buf),
   CallProcess finish input :: w).

(** A codec with a stream, and the two members of [impl] the dispatcher
    tests set as asked. *)
Definition stream_codec (process_stream create_stream : bool) : SquashCodec := {|
  impl_splice := None;
  impl_process_stream := process_stream;
  impl_create_stream := create_stream;
  squash_codec_get_info := 0;
  squash_codec_get_max_compressed_size := fun n => n;
  squash_codec_get_uncompressed_size := fun n data => 0;
  squash_codec_compress_with_options := fun capacity n data options w =>
    ((SQUASH_OK, n, data), CallCompress capacity :: w);
  squash_codec_decompress_with_options := fun capacity n data options w =>
    ((SQUASH_OK, n, data), CallDecompress capacity :: w);
  squash_stream_new_codec_with_options := fun st options w =>
    (Some (mkStream 0 0 0 0 0 0), w);
  squash_stream_process := copy_step false;
  squash_stream_finish := copy_step true
|}.

(** A codec with a native splice: it asks its read callback for 4 bytes once
    and hands what it got to its write callback. *)
Definition native_codec : SquashCodec := {|
  impl_splice := Some (fun U options st read_cb write_cb u w =>
    let '((res, data), (u, w)) := read_cb 4 u w in
    if status_neg res then (res, (u, w))
    else
      let '((res, _), (u, w)) := write_cb (zlen data) data u w in
      (if status_neg res then res else SQUASH_OK, (u, w)));
  impl_process_stream := false;
  impl_create_stream := false;
  squash_codec_get_info := 0;
  squash_codec_get_max_compressed_size := fun n => n;
  squash_codec_get_uncompressed_size := fun n data => 0;
  squash_codec_compress_with_options := fun capacity n data options w =>
    ((SQUASH_OK, n, data), w);
  squash_codec_decompress_with_options := fun capacity n data options w =>
    ((SQUASH_OK, n, data), w);
  squash_stream_new_codec_with_options := fun st options w => (None, w);
  squash_stream_process := fun s in_buf out_buf w => ((SQUASH_FAILED, s, out_buf), w);
  squash_stream_finish := fun s in_buf out_buf w => ((SQUASH_FAILED, s, out_buf), w)
|}.

(** The user data of the examples: the chunks the source still holds, the
    bytes the sink has stored, the number of bytes it has said it wrote, and
    how often each callback was called. *)
Record Pipe : Type := mkPipe {
  source_chunks : list (list byte);
  sink : list byte;
  taken : Z;
  reads : nat;
  writes : nat
}.

(** A source that hands out one chunk per call, then END_OF_STREAM. *)
Definition pipe_read : SquashReadFunc Pipe :=
  fun n u w =>
    match source_chunks u with
    | [] =>
        ((SQUASH_END_OF_STREAM, []),
         (mkPipe [] (sink u) (taken u) (S (reads u)) (writes u), w))
    | c :: rest =>
        ((SQUASH_OK, c),
         (mkPipe rest (sink u) (taken u) (S (reads u)) (writes u), w))
    end.

(** A sink that takes at most [most] bytes per call. *)
Definition pipe_write (most : Z) : SquashWriteFunc Pipe :=
  fun n data u w =>
    let k := Z.min n most in
    ((SQUASH_OK, k),
     (mkPipe (source_chunks u) (sink u ++ firstn (Z.to_nat k) data)
             (taken u + k) (reads u) (S (writes u)), w)).

(** A sink that fails. *)
Definition pipe_write_fails : SquashWriteFunc Pipe :=
  fun n data u w =>
    ((SQUASH_IO, 0),
     (mkPipe (source_chunks u) (sink u) (taken u) (reads u) (S (writes u)), w)).

(** A [Pipe] is no [SquashFileSpliceData]: read as one, it shows two files
    and nothing else. *)
Definition pipe_cast : FileSpliceCast Pipe :=
  mkCast (fun _ => mkFileData true false 0 0 SQUASH_STREAM_COMPRESS tt) (fun u _ => u).

(** A codec that reports an uncompressed size of 4 bytes for data that needs
    8: it knows the size, and its [decompress_buffer] answers BUFFER_FULL. *)
Definition short_reporting_codec : SquashCodec :=
  buffer_codec SQUASH_CODEC_INFO_KNOWS_UNCOMPRESSED_SIZE 4 8.

(** A codec that does not know the size and needs 200 bytes of output. *)
Definition unknown_size_codec : SquashCodec := buffer_codec 0 0 200.

(** A registry that knows one codec. *)
Definition snappy_only (name : string) : option SquashCodec :=
  if String.eqb name "snappy"
  then Some (buffer_codec SQUASH_CODEC_INFO_KNOWS_UNCOMPRESSED_SIZE 11 11)
  else None.

(** A source file of five bytes; SQUASH_MAP_SPLICE as given. *)
Definition five_byte_file (env : option string) : Externals :=
  log_externals env ["w"; "x"; "y"; "z"; "!"]%byte snappy_only.

(** A decompressing splice with a budget of 2 bytes, a source that still
    holds a chunk and a sink that takes everything. *)
Definition limited_pipe : SquashSpliceLimitedData Pipe :=
  mkLimited (pipe_write 512) pipe_read (mkPipe [["c"%byte]] [] 0 0 0)
            SQUASH_STREAM_DECOMPRESS 2 0.

(** The same once the two bytes have been written. *)
Definition limited_pipe_spent : SquashSpliceLimitedData Pipe :=
  mkLimited (pipe_write 512) pipe_read (mkPipe [["c"%byte]] ["a"; "b"]%byte 2 0 1)
            SQUASH_STREAM_DECOMPRESS 0 2.

(** A source holding one chunk of four bytes, an empty sink. *)
Definition four_byte_pipe : Pipe :=
  mkPipe [["a"; "b"; "c"; "d"]%byte] [] 0 0 0.

(** * The rules the code is compared with

    Definitions that follow the words of the spec, and what the system
    promises about the page size. *)

(** What the system may answer when asked for the page size: [sysconf]
    answers -1 or a positive [long]; where [sysctl] succeeds it stores a
    positive [unsigned int]. *)
Definition page_size_answer_ok (q : PageSizeQuery) : Prop :=
  match q with
  | Sysconf ps => ps = -1 \/ 0 < ps < 2 ^ 63
  | Sysctl sres ps => sres = 0 -> 0 < ps < 2 ^ 32
  end.


Section SpecRules.

Context {P : Platform} {X : Externals}.
Variable codec : SquashCodec.
Variable options : SquashOptions.

(** One attempt of the accumulator: an output buffer of [size] bytes is
    allocated and handed to the codec; the attempt leaves the status and
    the length the codec returned, and the buffer with what the codec
    stored in it. *)
Definition accumulator_attempt (buffer : list byte) (size : Z) (w : W)
           (r : (SquashStatus * Z * list byte) * W) : Prop :=
  exists w1 res c stored w2,
    malloc size w = (true, w1)
    /\ squash_codec_decompress_with_options codec size (zlen buffer) buffer options w1
       = ((res, c, stored), w2)
    /\ r = ((res, c, blit stored (malloc_data size w1)), w2).


Context {U : Type}.
(** The number of bytes the sink has taken so far, and the budget. *)
Variable delivered : U -> Z.
Variable length : Z.

(** What a step of the inner loop leaves behind, in terms of the budget:
    the loop ended on an error; or the stream is within the budget and the
    sink has all of its output; or the stream went over the budget, the sink
    has exactly the budget, [res] is OK and [eof] is set. *)
Definition budget_outcome (d0 : Z) (res : SquashStatus) (stream : SquashStream)
           (eof : bool) (u : U) : Prop :=
  (status_neg res = true /\ d0 <= delivered u <= d0 + length)
  \/ (status_neg res = false
      /\ 0 <= total_out stream <= length
      /\ delivered u = d0 + total_out stream)
  \/ (length < total_out stream
      /\ res = SQUASH_OK /\ eof = true /\ delivered u = d0 + length).

End SpecRules.

(** ** More examples and rules *)

(** A snappy library for the examples: data is stored as it is behind one
    byte that holds its length. *)
Definition stored_snappy : SnappyLibrary := {|
  snappy_max_compressed_length := fun n => n + 1;
  snappy_uncompressed_length := fun compressed n result =>
    match compressed with
    | [] => (SNAPPY_INVALID_INPUT, result)
    | b :: _ => (SNAPPY_OK, Z.of_N (Byte.to_N b))
    end;
  snappy_uncompress := fun compressed n capacity =>
    match compressed with
    | [] => (SNAPPY_INVALID_INPUT, capacity, [])
    | b :: rest =>
        if negb (Z.of_N (Byte.to_N b) =? zlen rest)
        then (SNAPPY_INVALID_INPUT, capacity, [])
        else if capacity <? zlen rest
             then (SNAPPY_BUFFER_TOO_SMALL, capacity, [])
             else (SNAPPY_OK, zlen rest, rest)
    end;
  snappy_compress := fun input n capacity =>
    if capacity <? n + 1 then (SNAPPY_BUFFER_TOO_SMALL, capacity, [])
    else
      match Byte.of_N (Z.to_N n) with
      | Some b => (SNAPPY_OK, n + 1, b :: input)
      | None => (SNAPPY_INVALID_INPUT, capacity, [])
      end
|}.

(** The number of bytes [squash_file_read] has handed out so far. *)
Definition bytes_decoded_so_far (w : list Call) : Z :=
  fold_right (fun c acc => match c with CallFileRead n => n + acc | _ => acc end) 0 w.

(** The number of bytes that went through [fwrite], and through
    [squash_file_write]. *)
Definition bytes_fwritten (w : list Call) : Z :=
  fold_right (fun c acc => match c with CallFwrite d => zlen d + acc | _ => acc end) 0 w.

Definition bytes_file_written (w : list Call) : Z :=
  fold_right (fun c acc => match c with CallFileWrite d => zlen d + acc | _ => acc end)
             0 w.

(** The externals of the examples with a [SquashFile] that decodes to
    [decoded]: [squash_file_read] hands out what is left of it, as much as
    asked for, and logs the number of bytes. *)
Definition decoding_externals (decoded source : list byte) : Externals :=
  let base := log_externals None source snappy_only in {|
  malloc := malloc (Externals := base);
  malloc_data := malloc_data (Externals := base);
  NDEBUG := NDEBUG (Externals := base);
  squash_buffer_set_size := squash_buffer_set_size (Externals := base);
  squash_npot := squash_npot (Externals := base);
  SQUASH_FREAD_UNLOCKED := SQUASH_FREAD_UNLOCKED (Externals := base);
  SQUASH_FWRITE_UNLOCKED := SQUASH_FWRITE_UNLOCKED (Externals := base);
  feof := feof (Externals := base);
  getenv := getenv (Externals := base);
  squash_mapped_file_empty := squash_mapped_file_empty (Externals := base);
  squash_mapped_file_init := squash_mapped_file_init (Externals := base);
  squash_mapped_file_destroy := squash_mapped_file_destroy (Externals := base);
  squash_file_steal_codec_with_options :=
    squash_file_steal_codec_with_options (Externals := base);
  squash_file_write := squash_file_write (Externals := base);
  squash_file_read := fun f n w =>
    let data :=
      firstn (Z.to_nat n) (skipn (Z.to_nat (bytes_decoded_so_far w)) decoded) in
    ((if zlen data =? 0 then SQUASH_END_OF_STREAM else SQUASH_OK, data),
     CallFileRead (zlen data) :: w);
  squash_file_free := squash_file_free (Externals := base);
  SQUASH_FILE_BUF_SIZE := 4;
  squash_get_codec := squash_get_codec (Externals := base);
  squash_options_newv := squash_options_newv (Externals := base)
|}.

(** A compressing splice with 3 bytes of budget left, and a decompressing
    one with a budget of 5 bytes of which 2 are written. *)
Definition reading_limited_pipe : SquashSpliceLimitedData Pipe :=
  mkLimited (pipe_write 512) pipe_read (mkPipe [["a"; "b"]%byte] [] 0 0 0)
            SQUASH_STREAM_COMPRESS 3 0.

Definition writing_limited_pipe : SquashSpliceLimitedData Pipe :=
  mkLimited (pipe_write 512) pipe_read (mkPipe [] ["a"; "b"]%byte 2 0 1)
            SQUASH_STREAM_DECOMPRESS 3 2.

(** A source that hands out no more than it is asked for: up to [n] bytes
    of its first chunk, then the rest of that chunk, then the next one. *)
Definition pipe_take : SquashReadFunc Pipe :=
  fun n u w =>
    match source_chunks u with
    | [] =>
        ((SQUASH_END_OF_STREAM, []),
         (mkPipe [] (sink u) (taken u) (S (reads u)) (writes u), w))
    | c :: rest =>
        ((SQUASH_OK, firstn (Z.to_nat n) c),
         (mkPipe (match skipn (Z.to_nat n) c with
                  | [] => rest
                  | left_over => left_over :: rest
                  end)
                 (sink u) (taken u) (S (reads u)) (writes u), w))
    end.

(** A source that fails once its chunks are handed out. *)
Definition pipe_read_then_fails : SquashReadFunc Pipe :=
  fun n u w =>
    match source_chunks u with
    | [] =>
        ((SQUASH_IO, []),
         (mkPipe [] (sink u) (taken u) (S (reads u)) (writes u), w))
    | c :: rest =>
        ((SQUASH_OK, c),
         (mkPipe rest (sink u) (taken u) (S (reads u)) (writes u), w))
    end.

(** [pipe_cast] for a [Pipe] that carries a note. *)
Definition noted_pipe_cast : FileSpliceCast (Pipe * option SquashStatus) :=
  mkCast (fun _ => mkFileData true false 0 0 SQUASH_STREAM_COMPRESS tt) (fun u _ => u).

(** A codec that knows the uncompressed size and reports 0. *)
Definition zero_reporting_codec : SquashCodec :=
  buffer_codec SQUASH_CODEC_INFO_KNOWS_UNCOMPRESSED_SIZE 0 8.

(** A codec whose [compress_buffer] never has room. *)
Definition cramped_codec : SquashCodec := {|
  impl_splice := None;
  impl_process_stream := false;
  impl_create_stream := false;
  squash_codec_get_info := 0;
  squash_codec_get_max_compressed_size := fun n => 0;
  squash_codec_get_uncompressed_size := fun n data => 0;
  squash_codec_compress_with_options :=
    squash_codec_compress_with_options (buffer_codec 0 0 0);
  squash_codec_decompress_with_options :=
    squash_codec_decompress_with_options (buffer_codec 0 0 0);
  squash_stream_new_codec_with_options := fun st options w => (None, w);
  squash_stream_process := fun s in_buf out_buf w => ((SQUASH_FAILED, s, out_buf), w);
  squash_stream_finish := fun s in_buf out_buf w => ((SQUASH_FAILED, s, out_buf), w)
|}.

(** The user data of the file callbacks when compressing the source file
    under a budget of 3 bytes, at position [pos]. *)
Definition budgeted_source (pos : Z) : @SquashFileSpliceData log_platform :=
  mkFileData true false 3 pos SQUASH_STREAM_COMPRESS tt.

(** The same externals in a build that defines [NDEBUG]. *)
Definition release_build (base : Externals) : Externals := {|
  malloc := malloc (Externals := base);
  malloc_data := malloc_data (Externals := base);
  NDEBUG := true;
  squash_buffer_set_size := squash_buffer_set_size (Externals := base);
  squash_npot := squash_npot (Externals := base);
  SQUASH_FREAD_UNLOCKED := SQUASH_FREAD_UNLOCKED (Externals := base);
  SQUASH_FWRITE_UNLOCKED := SQUASH_FWRITE_UNLOCKED (Externals := base);
  feof := feof (Externals := base);
  getenv := getenv (Externals := base);
  squash_mapped_file_empty := squash_mapped_file_empty (Externals := base);
  squash_mapped_file_init := squash_mapped_file_init (Externals := base);
  squash_mapped_file_destroy := squash_mapped_file_destroy (Externals := base);
  squash_file_steal_codec_with_options :=
    squash_file_steal_codec_with_options (Externals := base);
  squash_file_write := squash_file_write (Externals := base);
  squash_file_read := squash_file_read (Externals := base);
  squash_file_free := squash_file_free (Externals := base);
  SQUASH_FILE_BUF_SIZE := SQUASH_FILE_BUF_SIZE (Externals := base);
  squash_get_codec := squash_get_codec (Externals := base);
  squash_options_newv := squash_options_newv (Externals := base)
|}.

(** A source that holds 1024 bytes, twice the size of the scratch buffers,
    and an empty sink. *)
Definition two_full_buffers : Pipe :=
  mkPipe [repeat "a"%byte 1024] [] 0 0 0.

(** What the system answers when the query for the page size fails. *)
Definition page_size_query_failed (q : PageSizeQuery) : Prop :=
  match q with
  | Sysconf ps => ps = -1
  | Sysctl sres _ => sres <> 0
  end.

Section MoreRules.

Context {P : Platform} {U : Type}.

(** The budget kept by the limiter when decompressing with a budget of [L]
    bytes: what is left and what was written add up to [L]. *)
Definition limited_budget_ok (L : Z) (ctx : SquashSpliceLimitedData U) : Prop :=
  0 <= remaining ctx /\ 0 <= written ctx /\ remaining ctx + written ctx = L.

(** A read callback that also remembers the last negative status it
    returned, and a write callback carried along with it. *)
Definition latch_read (read_cb : SquashReadFunc U)
  : SquashReadFunc (U * option SquashStatus) :=
  fun n ul w =>
    let '((res, data), (u, w)) := read_cb n (fst ul) w in
    ((res, data), ((u, if status_neg res then Some res else snd ul), w)).

Definition latch_write (write_cb : SquashWriteFunc U)
  : SquashWriteFunc (U * option SquashStatus) :=
  fun n data ul w =>
    let '(r, (u, w)) := write_cb n data (fst ul) w in
    (r, ((u, snd ul), w)).

(** A read callback that is never asked for more than the size of the
    scratch buffer, nor for a negative number of bytes. *)
Definition clamp_request (read_cb : SquashReadFunc U) : SquashReadFunc U :=
  fun n u w => read_cb (Z.max 0 (Z.min n SQUASH_SPLICE_BUF_SIZE)) u w.

End MoreRules.

(** The statics splice.c can be in: before the [once_flag] has fired, or
    with one of the three preferences. *)
Definition statics_ok (g : SpliceStatics) : Prop :=
  squash_splice_detect_once g = true ->
  squash_splice_try_mmap g = 1 \/ squash_splice_try_mmap g = 2
  \/ squash_splice_try_mmap g = 3.

(** * Properties *)

(** ** The page size *)

Lemma page_size_of_query_nonzero (q : PageSizeQuery) :
  page_size_answer_ok q -> page_size_of_query q <> 0.
Proof.
  destruct q as [ps | sres ps]; simpl; intros H.
  - destruct (Z.eqb_spec ps (-1)) as [_ | Hne]; [lia |].
    destruct H as [H | H]; [contradiction |].
    unfold to_size_t, SIZE_MODULUS. rewrite Z.mod_small; lia.
  - destruct (Z.eqb_spec sres 0) as [H0 | _]; [| lia].
    specialize (H H0). unfold to_size_t, SIZE_MODULUS.
    rewrite Z.mod_small; lia.
Qed.

Lemma page_size_calls_cached (v : Z) (qs : list PageSizeQuery) :
  v <> 0 -> page_size_calls v qs = repeat v (List.length qs).
Proof.
  intros Hv. induction qs as [| q qs IH]; simpl; [reflexivity |].
  destruct (Z.eqb_spec v 0) as [E | _]; [contradiction |].
  now rewrite IH.
Qed.

(** C10.  From the start of the process (the static is 0), whatever the
    system answers at the later calls, every call of [squash_get_page_size]
    returns the value the first call computed, and that value is not 0,
    provided the first answer is one the system may give. *)
Theorem C10_page_size_nonzero_and_cached (q : PageSizeQuery) (qs : list PageSizeQuery) :
  page_size_answer_ok q ->
  page_size_of_query q <> 0
  /\ page_size_calls 0 (q :: qs)
     = repeat (page_size_of_query q) (S (List.length qs)).
Proof.
  intros Hq. pose proof (page_size_of_query_nonzero q Hq) as Hnz.
  split; [exact Hnz |].
  simpl. f_equal. now apply page_size_calls_cached.
Qed.

Lemma C10_witness :
  page_size_answer_ok (Sysconf 4096)
  /\ page_size_of_query (Sysconf 4096) <> 0
  /\ page_size_calls 0 [Sysconf 4096; Sysconf 16384; Sysconf (-1)]
     = [4096; 4096; 4096].
Proof.
  split; [right; split; [lia | reflexivity] |].
  apply (C10_page_size_nonzero_and_cached (Sysconf 4096) [Sysconf 16384; Sysconf (-1)]).
  right; split; [lia | reflexivity].
Defined.

(** ** The byte-budget limiter *)

Section LimiterProperties.

Context {P : Platform} {U : Type}.

Lemma sub_sz_exact (a b : Z) :
  0 <= b <= a -> a < SIZE_MODULUS -> sub_sz a b = a - b.
Proof.
  intros Hb Ha. unfold sub_sz, to_size_t. apply Z.mod_small. lia.
Qed.

(** C7.  The limited write wrapper when decompressing: the length is
    clamped to the smaller of [*data_length] and [remaining] first; a
    clamped length of 0 gives END_OF_STREAM and leaves the user data and
    the world as they were (the user callback is not called); otherwise the
    user callback is called with the clamped length, so the bytes beyond
    the budget never reach it, its status and length are what the wrapper
    returns (no error of the wrapper's own), and after a status that is not
    negative [remaining] has gone down by the number of bytes written. *)
Theorem C7_limited_write_when_decompressing
        (ctx : SquashSpliceLimitedData U) (n : Z) (data : list byte) (w : W) :
  stream_type ctx = SQUASH_STREAM_DECOMPRESS ->
  0 <= remaining ctx < SIZE_MODULUS ->
  let m := Z.min n (remaining ctx) in
  (m = 0 ->
   squash_splice_custom_limited_write n data ctx w
   = ((SQUASH_END_OF_STREAM, 0), (ctx, w)))
  /\ (m <> 0 ->
      forall res k u' w',
        write_func ctx m data (user_data ctx) w = ((res, k), (u', w')) ->
        exists ctx',
          squash_splice_custom_limited_write n data ctx w = ((res, k), (ctx', w'))
          /\ user_data ctx' = u'
          /\ (status_neg res = true -> remaining ctx' = remaining ctx)
          /\ (status_neg res = false -> 0 <= k <= m ->
              remaining ctx' = remaining ctx - k)).
Proof.
  intros Hdir Hrange m.
  assert (Hclamp : (if true && (n >? remaining ctx) then remaining ctx else n) = m).
  { subst m. simpl. destruct (Z.gtb_spec n (remaining ctx)); lia. }
  unfold squash_splice_custom_limited_write. rewrite Hdir. simpl stream_type_eqb.
  rewrite Hclamp. split.
  - intros Hm. rewrite Hm. reflexivity.
  - intros Hm res k u' w' Hcall.
    destruct (Z.eqb_spec m 0) as [E | _]; [contradiction |].
    simpl andb. rewrite Hcall.
    destruct (status_neg res) eqn:Hneg.
    + eexists. split; [reflexivity |]. repeat split; simpl; auto. discriminate.
    + eexists. split; [reflexivity |]. repeat split; simpl; auto.
      * discriminate.
      * intros _ Hk. apply sub_sz_exact; lia.
Qed.

(** C3, as the code has it.  When compressing, the write wrapper hands the
    request to the user callback as it is and returns what the callback
    returned; the budget is not touched.  When decompressing, the read
    wrapper does the same as long as [remaining] is not 0; once it is 0 the
    wrapper answers END_OF_STREAM with no bytes by itself and calls
    nothing. *)
Theorem C3_unlimited_side_passes_through
        (ctx : SquashSpliceLimitedData U) (n : Z) (data : list byte) (w : W) :
  (stream_type ctx = SQUASH_STREAM_COMPRESS ->
   forall res k u' w',
     write_func ctx n data (user_data ctx) w = ((res, k), (u', w')) ->
     exists ctx',
       squash_splice_custom_limited_write n data ctx w = ((res, k), (ctx', w'))
       /\ user_data ctx' = u' /\ remaining ctx' = remaining ctx)
  /\ (stream_type ctx = SQUASH_STREAM_DECOMPRESS ->
      (remaining ctx <> 0 ->
       forall res got u' w',
         read_func ctx n (user_data ctx) w = ((res, got), (u', w')) ->
         squash_splice_custom_limited_read n ctx w
         = ((res, got), (set_user_data ctx u', w')))
      /\ (remaining ctx = 0 ->
          squash_splice_custom_limited_read n ctx w
          = ((SQUASH_END_OF_STREAM, []), (ctx, w)))).
Proof.
  split.
  - intros Hdir res k u' w' Hcall.
    unfold squash_splice_custom_limited_write. rewrite Hdir. simpl.
    rewrite Hcall. destruct (status_neg res);
      (eexists; split; [reflexivity | split; reflexivity]).
  - intros Hdir. unfold squash_splice_custom_limited_read. rewrite Hdir. simpl.
    split.
    + intros Hrem res got u' w' Hcall.
      destruct (Z.eqb_spec (remaining ctx) 0) as [E | _]; [contradiction |].
      rewrite Hcall. reflexivity.
    + intros Hrem. rewrite Hrem. reflexivity.
Qed.

End LimiterProperties.


Lemma C7_witness :
  (exists ctx',
      squash_splice_custom_limited_write 5 ["a"; "b"; "c"; "d"; "e"]%byte limited_pipe []
      = ((SQUASH_OK, 2), (ctx', []))
      /\ user_data ctx' = mkPipe [["c"%byte]] ["a"; "b"]%byte 2 0 1
      /\ remaining ctx' = 0)
  /\ squash_splice_custom_limited_write 5 ["a"; "b"; "c"; "d"; "e"]%byte limited_pipe_spent []
     = ((SQUASH_END_OF_STREAM, 0), (limited_pipe_spent, [])).
Proof.
  split.
  - destruct (C7_limited_write_when_decompressing
                limited_pipe 5 ["a"; "b"; "c"; "d"; "e"]%byte [] eq_refl)
      as [_ H]; [vm_compute; split; [discriminate | reflexivity] |].
    destruct (H ltac:(vm_compute; discriminate) SQUASH_OK 2
                (mkPipe [["c"%byte]] ["a"; "b"]%byte 2 0 1) [] eq_refl)
      as [ctx' [Heq [Hu [_ Hrem]]]].
    exists ctx'. split; [exact Heq |]. split; [exact Hu |].
    apply (Hrem eq_refl). vm_compute. split; discriminate.
  - apply (C7_limited_write_when_decompressing
             limited_pipe_spent 5 ["a"; "b"; "c"; "d"; "e"]%byte [] eq_refl).
    + vm_compute; split; [discriminate | reflexivity].
    + reflexivity.
Defined.

(** C3 as stated fails: when decompressing, the read side is the unlimited
    one, yet once the budget is spent the read wrapper returns END_OF_STREAM
    by itself, where the user callback, had it been called, would have
    returned OK and a byte. *)
Lemma C3_counterexample :
  stream_type limited_pipe = SQUASH_STREAM_DECOMPRESS
  /\ squash_splice_custom_limited_write 2 ["a"; "b"]%byte limited_pipe []
     = ((SQUASH_OK, 2), (limited_pipe_spent, []))
  /\ squash_splice_custom_limited_read 10 limited_pipe_spent []
     = ((SQUASH_END_OF_STREAM, []), (limited_pipe_spent, []))
  /\ fst (read_func limited_pipe_spent 10 (user_data limited_pipe_spent) [])
     = (SQUASH_OK, ["c"%byte]).
Proof. repeat split. Qed.

Lemma C3_witness :
  squash_splice_custom_limited_read 10 limited_pipe []
  = ((SQUASH_OK, ["c"%byte]),
     (set_user_data limited_pipe (mkPipe [] [] 0 1 0), []))
  /\ squash_splice_custom_limited_read 10 limited_pipe_spent []
     = ((SQUASH_END_OF_STREAM, []), (limited_pipe_spent, [])).
Proof.
  destruct (C3_unlimited_side_passes_through limited_pipe 10 [] [])
    as [_ Hread].
  destruct (Hread eq_refl) as [Hlive _].
  destruct (C3_unlimited_side_passes_through limited_pipe_spent 10 [] [])
    as [_ Hread'].
  destruct (Hread' eq_refl) as [_ Hspent].
  split.
  - apply Hlive; [discriminate | reflexivity].
  - apply Hspent. reflexivity.
Defined.

(** ** The dispatcher and the entry points *)

Section DispatchProperties.

Context {P : Platform} {X : Externals}.

(** C2.  With a native splice and [length = 0] the function is one call of
    the codec's splice, on the two file callbacks and the caller's user
    data; [read_cb] and [write_cb] do not appear in it, so the result is the
    same whatever they are. *)
Theorem C2_native_splice_uses_file_callbacks
        {U : Type} (cast : FileSpliceCast U) (fuel : nat) (scratch : list byte)
        (codec : SquashCodec) splice (stream_type : SquashStreamType)
        (write_cb : SquashWriteFunc U) (read_cb : SquashReadFunc U)
        (user_data : U) (options : SquashOptions) (w : W) :
  impl_splice codec = Some splice ->
  squash_splice_custom_codec_with_options
    cast fuel scratch codec stream_type write_cb read_cb user_data 0 options w
  = Some (splice U options stream_type
                 (cast_read cast squash_file_splice_read)
                 (cast_write cast squash_file_splice_write)
                 user_data w)
  /\ forall (write_cb' : SquashWriteFunc U) (read_cb' : SquashReadFunc U),
      squash_splice_custom_codec_with_options
        cast fuel scratch codec stream_type write_cb' read_cb' user_data 0 options w
      = squash_splice_custom_codec_with_options
          cast fuel scratch codec stream_type write_cb read_cb user_data 0 options w.
Proof.
  intros Hsplice. unfold squash_splice_custom_codec_with_options.
  rewrite Hsplice. simpl. split; [reflexivity | intros; reflexivity].
Qed.

(** C9.  A codec name the registry does not know: both name-based entry
    points return BAD_PARAM, and the statics and the world are the ones they
    were given (nothing was called). *)
Theorem C9_unknown_codec_is_bad_param
        (fuel : nat) (scratch : list byte) (codec : string)
        (stream_type : SquashStreamType) (fp_out fp_in : FILE) (length : Z)
        (ap : va_list) (options : SquashOptions) (g : SpliceStatics) (w : W) :
  squash_get_codec codec = None ->
  squash_splice fuel scratch codec stream_type fp_out fp_in length ap g w
  = Some (SQUASH_BAD_PARAM, (g, w))
  /\ squash_splice_with_options
       fuel scratch codec stream_type fp_out fp_in length options g w
     = Some (SQUASH_BAD_PARAM, (g, w)).
Proof.
  intros Hnone. unfold squash_splice, squash_splice_with_options.
  rewrite Hnone. split; reflexivity.
Qed.

Lemma call_once_detect_fired (g : SpliceStatics) (w : W) :
  squash_splice_detect_once g = true -> call_once_detect g w = g.
Proof. intros H. unfold call_once_detect. now rewrite H. Qed.

Lemma dispatcher_statics
      (fuel : nat) (scratch : list byte) (codec : SquashCodec)
      (stream_type : SquashStreamType) (fp_out fp_in : FILE) (length : Z)
      (options : SquashOptions) (g : SpliceStatics) (w : W) res g' w' :
  squash_splice_codec_with_options
    fuel scratch codec stream_type fp_out fp_in length options g w
  = Some (res, (g', w')) ->
  g' = call_once_detect g w.
Proof.
  unfold squash_splice_codec_with_options.
  match goal with
  | |- match ?r with _ => _ end = _ -> _ => destruct r as [[? ?] |]
  end; intros H; inversion H; reflexivity.
Qed.

(** C8, as the code has it.  The preference is computed by
    [squash_splice_detect_enable] under [call_once]: the first call of the
    dispatcher stores it and no later call changes it, whatever the
    environment has become.  "no" gives 1, "always" gives 3, and "yes", no
    value or any other value give 2.  With 1 the mapped path is never tried,
    with 3 it is always tried, and with 2 it is tried exactly when the codec
    has no [create_stream]; where the mapped path is not tried the
    dispatcher is the stream path alone.  A codec with a native splice
    never reaches that test: the dispatcher is [squash_file_splice]
    alone. *)
Theorem C8_mmap_preference
        (fuel : nat) (scratch : list byte) (codec : SquashCodec)
        (stream_type : SquashStreamType) (fp_out fp_in : FILE) (length : Z)
        (options : SquashOptions) (g : SpliceStatics) (w : W) :
  (* computed once *)
  (forall res g' w',
      squash_splice_codec_with_options
        fuel scratch codec stream_type fp_out fp_in length options g w
      = Some (res, (g', w')) ->
      g' = call_once_detect g w /\ squash_splice_detect_once g' = true)
  /\ call_once_detect statics_at_start w
     = mkStatics true (squash_splice_detect_enable w)
  /\ (squash_splice_detect_once g = true -> call_once_detect g w = g)
  /\ (forall w2, call_once_detect (call_once_detect g w) w2 = call_once_detect g w)
  (* from the environment *)
  /\ (getenv "SQUASH_MAP_SPLICE" w = Some "no"%string ->
      squash_splice_detect_enable w = 1)
  /\ (getenv "SQUASH_MAP_SPLICE" w = Some "always"%string ->
      squash_splice_detect_enable w = 3)
  /\ (getenv "SQUASH_MAP_SPLICE" w = None -> squash_splice_detect_enable w = 2)
  /\ (forall ev, getenv "SQUASH_MAP_SPLICE" w = Some ev ->
                 ev <> "no"%string -> ev <> "always"%string ->
                 squash_splice_detect_enable w = 2)
  (* what the three values mean *)
  /\ (squash_splice_try_mmap g = 1 -> splice_tries_map g codec = false)
  /\ (squash_splice_try_mmap g = 3 -> splice_tries_map g codec = true)
  /\ (squash_splice_try_mmap g = 2 ->
      splice_tries_map g codec = negb (impl_create_stream codec))
  /\ (impl_splice codec = None ->
      splice_tries_map (call_once_detect g w) codec = false ->
      squash_splice_codec_with_options
        fuel scratch codec stream_type fp_out fp_in length options g w
      = match squash_splice_stream
                fuel fp_in fp_out length stream_type codec options w with
        | None => None
        | Some (res, w') => Some (res, (call_once_detect g w, w'))
        end)
  (* a native splice comes first *)
  /\ (forall splice,
         impl_splice codec = Some splice ->
         squash_splice_codec_with_options
           fuel scratch codec stream_type fp_out fp_in length options g w
         = match squash_file_splice
                   fuel scratch fp_in fp_out length stream_type codec options w with
           | None => None
           | Some (res, w') => Some (res, (call_once_detect g w, w'))
           end).
Proof.
  split; [| split; [| split; [| split; [| split; [| split; [| split; [| split;
    [| split; [| split; [| split; [| split]]]]]]]]]]].
  - intros res g' w' H. pose proof (dispatcher_statics _ _ _ _ _ _ _ _ _ _ H) as E.
    split; [exact E |]. subst g'. unfold call_once_detect.
    destruct (squash_splice_detect_once g) eqn:F; [exact F | reflexivity].
  - reflexivity.
  - apply call_once_detect_fired.
  - intros w2. apply call_once_detect_fired. unfold call_once_detect.
    destruct (squash_splice_detect_once g) eqn:F; [exact F | reflexivity].
  - intros H. unfold squash_splice_detect_enable. now rewrite H.
  - intros H. unfold squash_splice_detect_enable. now rewrite H.
  - intros H. unfold squash_splice_detect_enable. now rewrite H.
  - intros ev H Hno Halways. unfold squash_splice_detect_enable. rewrite H.
    destruct (String.eqb_spec ev "yes"); [reflexivity |].
    destruct (String.eqb_spec ev "always"); [contradiction |].
    destruct (String.eqb_spec ev "no"); [contradiction | reflexivity].
  - intros H. unfold splice_tries_map. now rewrite H.
  - intros H. unfold splice_tries_map. now rewrite H.
  - intros H. unfold splice_tries_map. now rewrite H.
  - intros Hsplice Hmap. unfold squash_splice_codec_with_options.
    rewrite Hsplice, Hmap. simpl. reflexivity.
  - intros splice Hnative. unfold squash_splice_codec_with_options.
    rewrite Hnative. reflexivity.
Qed.

End DispatchProperties.


Lemma C2_witness :
  squash_splice_custom_codec_with_options
    (X := five_byte_file None) pipe_cast 0 [] native_codec SQUASH_STREAM_COMPRESS
    (pipe_write 512) pipe_read (mkPipe [["a"%byte]] [] 0 0 0) 0 tt []
  = Some (SQUASH_OK,
          (mkPipe [["a"%byte]] [] 0 0 0,
           [CallFwrite ["w"; "x"; "y"; "z"]%byte; CallFread 4])).
Proof.
  destruct (C2_native_splice_uses_file_callbacks
              (X := five_byte_file None) pipe_cast 0 [] native_codec
              SQUASH_STREAM_COMPRESS (pipe_write 512) pipe_read
              (mkPipe [["a"%byte]] [] 0 0 0) tt [] eq_refl) as [H _].
  exact H.
Defined.

Lemma C9_witness :
  squash_splice (X := five_byte_file None) 0 [] "lzma" SQUASH_STREAM_COMPRESS
                false true 0 tt statics_at_start []
  = Some (SQUASH_BAD_PARAM, (statics_at_start, []))
  /\ squash_splice_with_options
       (X := five_byte_file None) 0 [] "lzma" SQUASH_STREAM_COMPRESS
       false true 0 tt statics_at_start []
     = Some (SQUASH_BAD_PARAM, (statics_at_start, [])).
Proof.
  apply (C9_unknown_codec_is_bad_param (X := five_byte_file None)).
  reflexivity.
Defined.

(** C8 as stated fails: with SQUASH_MAP_SPLICE unset, a codec that has
    [process_stream] and no [create_stream] is sent down the mapped path. *)
Lemma C8_counterexample :
  impl_process_stream (stream_codec true false) = true
  /\ getenv (Externals := five_byte_file None) "SQUASH_MAP_SPLICE" [] = None
  /\ squash_splice_codec_with_options
       (X := five_byte_file None) 5 [] (stream_codec true false)
       SQUASH_STREAM_COMPRESS false true 0 tt statics_at_start []
     = Some (SQUASH_OK,
             (mkStatics true 2,
              [CallMapDestroy false; CallMapDestroy false;
               CallMapDestroy true; CallMapDestroy true;
               CallCompress 5; CallMapInit 5 true; CallMapInit 0 false])).
Proof. repeat split. Qed.

Lemma C8_witness :
  squash_splice_try_mmap
    (call_once_detect (X := five_byte_file None) statics_at_start []) = 2
  /\ squash_splice_codec_with_options
       (X := five_byte_file None) 5 [] (stream_codec true true)
       SQUASH_STREAM_COMPRESS false true 0 tt statics_at_start []
     = Some (SQUASH_OK,
             (mkStatics true 2,
              [CallFileFree; CallFread 0;
               CallFileWrite ["w"; "x"; "y"; "z"; "!"]%byte;
               CallFread 5; CallMalloc 1048576; CallFileSteal])).
Proof.
  pose proof (C8_mmap_preference
                (X := five_byte_file None) 5 [] (stream_codec true true)
                SQUASH_STREAM_COMPRESS false true 0 tt statics_at_start [])
    as [_ [Hfirst [_ [_ [_ [_ [Hunset [_ [_ [_ [_ [Hstream _]]]]]]]]]]]].
  split.
  - rewrite Hfirst. exact (Hunset eq_refl).
  - rewrite (Hstream eq_refl eq_refl). reflexivity.
Defined.

(** ** Growing the output buffer *)

Lemma status_eqb_eq (a b : SquashStatus) : status_eqb a b = true <-> a = b.
Proof.
  split.
  - destruct a, b; intros H; try reflexivity; discriminate H.
  - intros ->. unfold status_eqb. apply Z.eqb_refl.
Qed.

Lemma status_eqb_neq (a b : SquashStatus) : a <> b -> status_eqb a b = false.
Proof.
  intros H. destruct (status_eqb a b) eqn:E; [| reflexivity].
  apply status_eqb_eq in E. contradiction.
Qed.



Section GrowingProperties.

Context {P : Platform} {X : Externals}.
Variable codec : SquashCodec.
Variable options : SquashOptions.






Lemma decompress_growing_never_full fuel size buffer w r w' :
  decompress_growing codec options fuel size buffer w = Some (r, w') ->
  match r with
  | inl res => res = SQUASH_MEMORY
  | inr (res, _, _) => res <> SQUASH_BUFFER_FULL
  end.
Proof.
  revert size w. induction fuel as [| fuel IH]; intros size w; simpl;
    [discriminate |].
  destruct (malloc size w) as [[|] w1]; simpl.
  - destruct (squash_codec_decompress_with_options
                codec size (zlen buffer) buffer options w1)
      as [[[res c] out] w2].
    destruct (status_eqb res SQUASH_BUFFER_FULL) eqn:Efull; [apply IH |].
    assert (Hne : res <> SQUASH_BUFFER_FULL).
    { intros ->. discriminate Efull. }
    destruct (status_eqb res SQUASH_OK); intros H; inversion H; exact Hne.
  - intros H; inversion H. reflexivity.
Qed.

Lemma map_decompress_loop_never_full fuel fp_out mapped_in mapped_out size res0 w
      res mi mo w' :
  (forall m fp n writable w0,
      fst (fst (squash_mapped_file_init m fp n writable w0)) = true) ->
  map_decompress_loop fuel codec options false fp_out mapped_in mapped_out
                      size res0 w
  = Some ((res, mi, mo), w') ->
  res <> SQUASH_BUFFER_FULL.
Proof.
  intros Hinit. revert mapped_in mapped_out size res0 w.
  induction fuel as [| fuel IH]; intros mapped_in mapped_out size res0 w; simpl;
    [discriminate |].
  pose proof (Hinit mapped_out fp_out size true w) as Hok.
  destruct (squash_mapped_file_init mapped_out fp_out size true w)
    as [[ok mo1] w1]. simpl in Hok. subst ok. simpl.
  destruct (squash_codec_decompress_with_options
              codec (map_length mo1) (map_length mapped_in) (map_data mapped_in)
              options w1) as [[[res1 c] out] w2].
  destruct (status_eqb res1 SQUASH_OK) eqn:Eok.
  - apply status_eqb_eq in Eok. subst res1.
    destruct (squash_mapped_file_destroy mapped_in true w2) as [mi' wa].
    destruct (squash_mapped_file_destroy (mkMapped out c) true wa) as [mo' wb].
    simpl. intros H; inversion H. discriminate.
  - simpl. destruct (status_eqb res1 SQUASH_BUFFER_FULL) eqn:Efull; [apply IH |].
    intros H; inversion H; subst. intros ->. discriminate Efull.
Qed.

(** C1, as the code has it.  For a codec that does not know the uncompressed
    size, the retry loops of the accumulator and of the mapped path never
    end on a BUFFER_FULL of the codec (in the mapped path as long as the
    sink can be mapped).  For a codec that knows it there is no retry: the
    transform of the accumulator and the loop of the mapped path do the same
    with any fuel as with none to spare.  The accumulator, when the size
    the codec reported is not 0, leaves exactly what one attempt with that
    size leaves, whatever the status, BUFFER_FULL included.  The mapped
    path maps the sink with the size the codec reported, calls the codec
    once, and on a status other than OK returns that status, BUFFER_FULL
    included, in the world the call left, the two mappings released; the
    dispatcher then runs the stream path from where the mapped path
    stopped. *)
Theorem C1_buffer_full_is_retried_for_unknown_size_only :
  (knows_uncompressed_size codec = false ->
   (forall fuel buffer w r w',
       transform_buffer codec options fuel SQUASH_STREAM_DECOMPRESS buffer w
       = Some (r, w') ->
       match r with
       | inl res => res = SQUASH_MEMORY
       | inr (res, _, _) => res <> SQUASH_BUFFER_FULL
       end)
   /\ ((forall m fp n writable w0,
           fst (fst (squash_mapped_file_init m fp n writable w0)) = true) ->
       forall fuel fp_in fp_out length w res w',
         squash_splice_map fuel fp_in fp_out length
                           SQUASH_STREAM_DECOMPRESS codec options w
         = Some (res, w') ->
         res <> SQUASH_BUFFER_FULL))
  /\ (knows_uncompressed_size codec = true ->
      (forall fuel buffer w,
          transform_buffer codec options fuel SQUASH_STREAM_DECOMPRESS buffer w
          = transform_buffer codec options 0 SQUASH_STREAM_DECOMPRESS buffer w)
      /\ (forall fuel fp_in fp_out length w,
             squash_splice_map (S fuel) fp_in fp_out length
                               SQUASH_STREAM_DECOMPRESS codec options w
             = squash_splice_map 1 fp_in fp_out length
                                 SQUASH_STREAM_DECOMPRESS codec options w)
      /\ (forall fuel fp_out mapped_in mapped_out size res0 w mo1 w1 res c out w2,
             squash_mapped_file_init mapped_out fp_out size true w
             = ((true, mo1), w1) ->
             squash_codec_decompress_with_options
               codec (map_length mo1) (map_length mapped_in) (map_data mapped_in)
               options w1 = ((res, c, out), w2) ->
             res <> SQUASH_OK ->
             map_decompress_loop (S fuel) codec options true fp_out
                                 mapped_in mapped_out size res0 w
             = Some ((res, mapped_in, mkMapped out c), w2))
      /\ (forall fuel buffer w r w',
             squash_codec_get_uncompressed_size codec (zlen buffer) buffer <> 0 ->
             (transform_buffer codec options fuel SQUASH_STREAM_DECOMPRESS buffer w
              = Some (inr r, w')
              <-> accumulator_attempt
                    codec options buffer
                    (squash_codec_get_uncompressed_size codec (zlen buffer) buffer)
                    w (r, w')))
      /\ (forall fuel fp_in fp_out length w mapped_in w0 mo1 w1 res c out w2,
             squash_mapped_file_init squash_mapped_file_empty fp_in 0 false w
             = ((true, mapped_in), w0) ->
             squash_mapped_file_init
               squash_mapped_file_empty fp_out
               (squash_codec_get_uncompressed_size
                  codec (map_length mapped_in) (map_data mapped_in))
               true w0
             = ((true, mo1), w1) ->
             squash_codec_decompress_with_options
               codec (map_length mo1) (map_length mapped_in) (map_data mapped_in)
               options w1 = ((res, c, out), w2) ->
             res <> SQUASH_OK ->
             squash_splice_map (S fuel) fp_in fp_out length
                               SQUASH_STREAM_DECOMPRESS codec options w
             = Some (res,
                     snd (squash_mapped_file_destroy
                            (mkMapped out c) false
                            (snd (squash_mapped_file_destroy mapped_in false w2))))))
  /\ (forall fuel scratch stream_type fp_out fp_in length g w res w1,
         impl_splice codec = None ->
         splice_tries_map (call_once_detect g w) codec = true ->
         squash_splice_map fuel fp_in fp_out length stream_type codec options w
         = Some (res, w1) ->
         res <> SQUASH_OK ->
         squash_splice_codec_with_options
           fuel scratch codec stream_type fp_out fp_in length options g w
         = match squash_splice_stream
                   fuel fp_in fp_out length stream_type codec options w1 with
           | None => None
           | Some (res', w') => Some (res', (call_once_detect g w, w'))
           end).
Proof.
  split; [| split].
  - intros Hunknown. split.
    + intros fuel buffer w r w'. unfold transform_buffer. rewrite Hunknown.
      apply decompress_growing_never_full.
    + intros Hinit fuel fp_in fp_out length w res w'.
      unfold squash_splice_map. rewrite Hunknown.
      pose proof (Hinit squash_mapped_file_empty fp_in 0 false w) as Hok.
      destruct (squash_mapped_file_init squash_mapped_file_empty fp_in 0 false w)
        as [[ok mi] w0]. simpl in Hok. subst ok. simpl.
      destruct (map_decompress_loop
                  fuel codec options false fp_out mi squash_mapped_file_empty
                  (shl_sz (squash_npot (map_length mi)) 3) SQUASH_FAILED w0)
        as [[[[res1 mi1] mo1] w1] |] eqn:Hloop; [| discriminate].
      destruct (squash_mapped_file_destroy mi1 false w1) as [? wa].
      destruct (squash_mapped_file_destroy mo1 false wa) as [? wb].
      intros H; inversion H; subst.
      exact (map_decompress_loop_never_full _ _ _ _ _ _ _ Hinit Hloop).
  - intros Hknows. split; [| split; [| split; [| split]]].
    + intros fuel buffer w. unfold transform_buffer. now rewrite Hknows.
    + intros fuel fp_in fp_out length w. unfold squash_splice_map.
      rewrite Hknows.
      destruct (squash_mapped_file_init squash_mapped_file_empty fp_in 0 false w)
        as [[[|] mi] w0]; simpl; [| reflexivity].
      destruct (squash_mapped_file_init
                  squash_mapped_file_empty fp_out
                  (squash_codec_get_uncompressed_size
                     codec (map_length mi) (map_data mi)) true w0)
        as [[[|] mo1] w1]; simpl; [| reflexivity].
      destruct (squash_codec_decompress_with_options
                  codec (map_length mo1) (map_length mi) (map_data mi) options w1)
        as [[[res c] out] w2].
      destruct (status_eqb res SQUASH_OK); reflexivity.
    + intros fuel fp_out mapped_in mapped_out size res0 w mo1 w1 res c out w2
             Hi Hd Hne.
      simpl. rewrite Hi. simpl. rewrite Hd.
      rewrite (status_eqb_neq Hne). reflexivity.
    + intros fuel buffer w r w' Hsize. unfold transform_buffer. rewrite Hknows.
      destruct (Z.eqb_spec
                  (squash_codec_get_uncompressed_size codec (zlen buffer) buffer) 0)
        as [E | _]; [contradiction |].
      split.
      * destruct (malloc
                    (squash_codec_get_uncompressed_size codec (zlen buffer) buffer) w)
          as [[|] w1] eqn:Hm; cbn [negb]; [| discriminate].
        destruct (squash_codec_decompress_with_options
                    codec
                    (squash_codec_get_uncompressed_size codec (zlen buffer) buffer)
                    (zlen buffer) buffer options w1)
          as [[[res c] stored] w2] eqn:Hd.
        intros H; inversion H; subst.
        exists w1, res, c, stored, w'.
        split; [exact Hm | split; [exact Hd | reflexivity]].
      * intros [w1 [res [c [stored [w2 [Hm [Hd Hr]]]]]]].
        inversion Hr; subst. rewrite Hm. cbn [negb]. rewrite Hd. reflexivity.
    + intros fuel fp_in fp_out length w mapped_in w0 mo1 w1 res c out w2
             Hin Hout Hd Hne.
      unfold squash_splice_map. rewrite Hin. cbn [negb]. rewrite Hknows.
      cbn [map_decompress_loop]. rewrite Hout. cbn [negb]. rewrite Hd.
      rewrite (status_eqb_neq Hne). cbn [negb andb].
      destruct (squash_mapped_file_destroy mapped_in false w2) as [mi' wa].
      cbn [snd].
      destruct (squash_mapped_file_destroy (mkMapped out c) false wa) as [mo' wb].
      reflexivity.
  - intros fuel scratch stream_type fp_out fp_in length g w res w1
           Hsplice Htries Hmap Hne.
    unfold squash_splice_codec_with_options.
    rewrite Hsplice, Htries, Hmap. rewrite (status_eqb_neq Hne). simpl.
    reflexivity.
Qed.

End GrowingProperties.


(** C1 as stated fails: for a codec that knows the uncompressed size a
    BUFFER_FULL of [decompress_buffer] is not retried.  The mapped path
    makes one attempt, with the 4 bytes the codec reported, and returns
    BUFFER_FULL; the accumulator makes the same single attempt and goes on
    to the sink, which is handed the 4 bytes of the block, left by the
    codec as [malloc] returned them. *)
Lemma C1_counterexample :
  knows_uncompressed_size short_reporting_codec = true
  /\ squash_splice_map (X := five_byte_file None) 5 true false 0
                       SQUASH_STREAM_DECOMPRESS short_reporting_codec tt []
     = Some (SQUASH_BUFFER_FULL,
             [CallMapDestroy false; CallMapDestroy false;
              CallDecompress 4; CallMapInit 4 true; CallMapInit 0 false])
  /\ squash_splice_custom_codec_with_options
       (X := five_byte_file None) pipe_cast 5 [] short_reporting_codec
       SQUASH_STREAM_DECOMPRESS (pipe_write 512) pipe_read
       (mkPipe [["a"; "b"; "c"]%byte] [] 0 0 0) 0 tt []
     = Some (SQUASH_OK,
             (mkPipe [] ["?"; "?"; "?"; "?"]%byte 4 2 1,
              [CallDecompress 4; CallMalloc 4; CallSetSize 515; CallSetSize 512])).
Proof. repeat split. Qed.

Lemma C1_witness :
  match squash_splice_map (X := five_byte_file None) 5 true false 0
                          SQUASH_STREAM_DECOMPRESS unknown_size_codec tt [] with
  | Some (res, w) =>
      res <> SQUASH_BUFFER_FULL
      /\ decompress_capacities w = [64; 128; 256]
  | None => False
  end
  /\ squash_splice_codec_with_options
       (X := five_byte_file None) 5 [] short_reporting_codec
       SQUASH_STREAM_DECOMPRESS false true 0 tt statics_at_start []
     = Some (SQUASH_OK,
             (mkStatics true 2,
              [CallFileFree; CallFileRead 1048576; CallMalloc 1048576;
               CallFileSteal; CallMapDestroy false; CallMapDestroy false;
               CallDecompress 4; CallMapInit 4 true; CallMapInit 0 false]))
  /\ transform_buffer (X := five_byte_file None) short_reporting_codec tt 0
                      SQUASH_STREAM_DECOMPRESS ["a"; "b"; "c"]%byte []
     = Some (inr (SQUASH_BUFFER_FULL, 4, ["?"; "?"; "?"; "?"]%byte),
             [CallDecompress 4; CallMalloc 4]).
Proof.
  split; [| split].
  - destruct (C1_buffer_full_is_retried_for_unknown_size_only
                (X := five_byte_file None) unknown_size_codec tt)
      as [Hunknown _].
    destruct (Hunknown eq_refl) as [_ Hmap].
    split; [| reflexivity].
    apply (Hmap (fun _ _ _ _ _ => eq_refl) 5%nat true false 0 []
                SQUASH_OK
                [CallMapDestroy false; CallMapDestroy false;
                 CallMapDestroy true; CallMapDestroy true;
                 CallDecompress 256; CallMapInit 256 true;
                 CallDecompress 128; CallMapInit 128 true;
                 CallDecompress 64; CallMapInit 64 true;
                 CallMapInit 0 false]).
    reflexivity.
  - destruct (C1_buffer_full_is_retried_for_unknown_size_only
                (X := five_byte_file None) short_reporting_codec tt)
      as [_ [_ Hdispatch]].
    rewrite (Hdispatch 5%nat [] SQUASH_STREAM_DECOMPRESS false true 0
                       statics_at_start [] SQUASH_BUFFER_FULL
                       [CallMapDestroy false; CallMapDestroy false;
                        CallDecompress 4; CallMapInit 4 true; CallMapInit 0 false]
                       eq_refl eq_refl eq_refl ltac:(discriminate)).
    reflexivity.
  - destruct (C1_buffer_full_is_retried_for_unknown_size_only
                (X := five_byte_file None) short_reporting_codec tt)
      as [_ [Hknows _]].
    destruct (Hknows eq_refl) as [_ [_ [_ [Hattempt _]]]].
    apply (Hattempt 0%nat ["a"; "b"; "c"]%byte []
                    (SQUASH_BUFFER_FULL, 4, ["?"; "?"; "?"; "?"]%byte)
                    [CallDecompress 4; CallMalloc 4]).
    + vm_compute. discriminate.
    + do 5 eexists. split; [reflexivity | split; reflexivity].
Defined.


(** ** The stream loop under an output budget *)

Section StreamBudgetProperties.

Context {P : Platform} {X : Externals} {U : Type}.
Variable codec : SquashCodec.
Variable write_cb : SquashWriteFunc U.
Variable read_cb : SquashReadFunc U.
Variable length : Z.

Variable delivered : U -> Z.

(** The budget is not 0, and small enough for [total_out], a [size_t], not
    to wrap around in the step that passes it. *)
Hypothesis budget : 0 < length /\ length + SQUASH_SPLICE_BUF_SIZE < SIZE_MODULUS.

(** The sink works: asked for [n > 0] bytes it takes some of them, at most
    [n], and does not fail. *)
Hypothesis sink_takes :
  forall n data u w res k u' w',
    write_cb n data u w = ((res, k), (u', w')) ->
    0 < n ->
    status_neg res = false /\ 0 < k <= n /\ delivered u' = delivered u + k.

(** Reading does not write. *)
Hypothesis source_keeps :
  forall n u w res data u' w',
    read_cb n u w = ((res, data), (u', w')) -> delivered u' = delivered u.

(** The stream counts what it emits: after a step without error,
    [total_out] has grown by the part of the output buffer that was used. *)
Hypothesis stream_counts :
  forall (finish : bool) s in_buf out_buf w res s' out' w',
    (if finish
     then squash_stream_finish codec s in_buf out_buf w
     else squash_stream_process codec s in_buf out_buf w)
    = ((res, s', out'), w') ->
    0 <= avail_out s ->
    status_neg res = false ->
    0 <= avail_out s' <= avail_out s
    /\ total_out s' = total_out s + (avail_out s - avail_out s').

(** A new stream has emitted nothing. *)
Hypothesis stream_starts :
  forall stream_type options w s w',
    squash_stream_new_codec_with_options codec stream_type options w
    = (Some s, w') ->
    total_out s = 0.

Lemma stream_write_loop_delivers fuel out_buf n u w u' w' :
  stream_write_loop write_cb fuel out_buf n u w = Some (u', w') ->
  0 <= n < SIZE_MODULUS ->
  delivered u' = delivered u + n.
Proof using sink_takes.
  revert n u w. induction fuel as [| fuel IH]; intros n u w; simpl;
    [discriminate |].
  destruct (Z.eqb_spec n 0) as [-> | Hn].
  - intros H _. inversion H. lia.
  - destruct (write_cb n out_buf u w) as [[res k] [u1 w1]] eqn:E.
    intros H Hrange.
    destruct (sink_takes E) as [Hneg [Hk Hd]]; [lia |].
    rewrite Hneg in H. rewrite sub_sz_exact in H by lia.
    apply IH in H; lia.
Qed.

Lemma stream_write_loop_ends fuel out_buf n u w :
  0 <= n < SIZE_MODULUS ->
  (Z.to_nat n < fuel)%nat ->
  exists u' w', stream_write_loop write_cb fuel out_buf n u w = Some (u', w').
Proof using sink_takes.
  revert n u w. induction fuel as [| fuel IH]; intros n u w Hrange Hfuel;
    [lia |]. simpl.
  destruct (Z.eqb_spec n 0) as [-> | Hn]; [eauto |].
  destruct (write_cb n out_buf u w) as [[res k] [u1 w1]] eqn:E.
  destruct (sink_takes E) as [Hneg [Hk Hd]]; [lia |].
  rewrite Hneg. rewrite sub_sz_exact by lia. apply IH; lia.
Qed.

Lemma stream_process_loop_budget d0 fuel stream eof in_buf out_buf u w
      res stream' eof' out_buf' u' w' :
  0 <= total_out stream <= length ->
  delivered u = d0 + total_out stream ->
  stream_process_loop codec write_cb length true fuel stream eof in_buf out_buf u w
  = Some ((res, stream', eof', out_buf'), (u', w')) ->
  budget_outcome delivered length d0 res stream' eof' u'.
Proof using budget sink_takes stream_counts.
  revert stream eof out_buf u w.
  induction fuel as [| fuel IH]; intros stream eof out_buf u w Htot Hdel;
    [discriminate |].
  cbn [stream_process_loop].
  destruct (if eof
            then squash_stream_finish codec
                   (set_out stream 0 SQUASH_SPLICE_BUF_SIZE) in_buf out_buf w
            else squash_stream_process codec
                   (set_out stream 0 SQUASH_SPLICE_BUF_SIZE) in_buf out_buf w)
    as [[[res1 s1] out1] w1] eqn:Estep.
  destruct (status_neg res1) eqn:Hneg.
  - intros H; inversion H; subst. left. split; [exact Hneg | lia].
  - destruct (stream_counts eof _ _ _ _ Estep) as [Hav Htot1];
      [cbn [set_out avail_out]; unfold SQUASH_SPLICE_BUF_SIZE; lia | exact Hneg |].
    cbn [set_out avail_out total_out] in Hav, Htot1.
    unfold SQUASH_SPLICE_BUF_SIZE in *.
    pose proof budget as Hb. unfold SIZE_MODULUS in *.
    cbn [andb].
    destruct (Z.gtb_spec (total_out s1) length) as [Hover | Hin]; cbn [andb].
    + rewrite (sub_sz_exact (a := 512) (b := avail_out s1))
        by (unfold SIZE_MODULUS; lia).
      rewrite (sub_sz_exact (a := total_out s1) (b := length))
        by (unfold SIZE_MODULUS; lia).
      rewrite sub_sz_exact by (unfold SIZE_MODULUS; lia).
      destruct (negb NDEBUG && negb (total_out s1 - length <? 512));
        [discriminate |].
      destruct (stream_write_loop
                  write_cb (S fuel) out1
                  (512 - avail_out s1 - (total_out s1 - length)) u w1)
        as [[u2 w2] |] eqn:Ew; [| discriminate].
      apply stream_write_loop_delivers in Ew; [| unfold SIZE_MODULUS; lia].
      simpl. intros H; inversion H; subst.
      right; right. repeat split; lia.
    + rewrite (sub_sz_exact (a := 512) (b := avail_out s1))
        by (unfold SIZE_MODULUS; lia).
      destruct (stream_write_loop write_cb (S fuel) out1 (512 - avail_out s1) u w1)
        as [[u2 w2] |] eqn:Ew; [| discriminate].
      apply stream_write_loop_delivers in Ew; [| unfold SIZE_MODULUS; lia].
      destruct (status_eqb res1 SQUASH_PROCESSING).
      * apply IH; lia.
      * intros H; inversion H; subst.
        right; left. repeat split; try assumption; lia.
Qed.

Lemma stream_read_loop_budget (limit_input : bool)
      d0 fuel stream eof in_buf out_buf u w res stream' u' w' :
  0 <= total_out stream <= length ->
  delivered u = d0 + total_out stream ->
  stream_read_loop codec write_cb read_cb length limit_input true
                   fuel stream eof in_buf out_buf u w
  = Some ((res, stream'), (u', w')) ->
  d0 <= delivered u' <= d0 + length
  /\ (status_neg res = false -> length < total_out stream' ->
      res = SQUASH_OK /\ delivered u' = d0 + length).
Proof using budget sink_takes source_keeps stream_counts.
  revert stream eof in_buf out_buf u w.
  induction fuel as [| fuel IH]; intros stream eof in_buf out_buf u w Htot Hdel;
    [discriminate |].
  cbn [stream_read_loop].
  match goal with
  | |- context [read_cb ?n u w] =>
      destruct (read_cb n u w) as [[res0 data] [u1 w1]] eqn:Eread
  end.
  pose proof (source_keeps Eread) as Hkeep.
  destruct (status_neg res0) eqn:Hneg0.
  - intros H; inversion H; subst. split; [lia |].
    intros Hcontra. rewrite Hneg0 in Hcontra. discriminate.
  - match goal with
    | |- context [stream_process_loop ?c ?wc ?l ?lo ?f ?s ?e ?ib ?ob ?uu ?ww] =>
        destruct (stream_process_loop c wc l lo f s e ib ob uu ww)
          as [[[[[res1 s1] eof1] out1] [u2 w2]] |] eqn:Einner; [| discriminate]
    end.
    apply (stream_process_loop_budget d0) in Einner;
      [| cbn [set_in total_out]; lia | cbn [set_in total_out]; lia].
    destruct Einner as [[Hneg1 Hr] | [[Hneg1 [Ht Hd]] | [Hover [Hres [Heof Hd]]]]].
    + assert (Hno : status_eqb res1 SQUASH_OK = false).
      { apply status_eqb_neq. intros ->. discriminate Hneg1. }
      rewrite Hno. cbn [andb]. intros H; inversion H; subst.
      split; [lia |]. intros Hcontra. rewrite Hneg1 in Hcontra. discriminate.
    + destruct (status_eqb res1 SQUASH_OK && negb eof1).
      * apply IH; assumption.
      * intros H; inversion H; subst. split; [lia |]. intros _ Hcontra. lia.
    + subst eof1. rewrite andb_false_r. intros H; inversion H; subst.
      split; [lia |]. intros _ _. split; [reflexivity | lia].
Qed.

(** One step under a budget.  When a step of the inner loop leaves
    [total_out] above [length] and the assertion on the overshoot holds or
    is off, then, with fuel for the 512 bytes of the output buffer, the
    loop ends there with [res] OK and [eof] set, and the sink has received
    the bytes of the step less the overshoot, which brings it to exactly
    [length] bytes. *)
Lemma overshooting_step_is_cut
      d0 fuel stream (eof : bool) in_buf out_buf u w res1 s1 out1 w1 :
  0 <= total_out stream <= length ->
  delivered u = d0 + total_out stream ->
  (if eof
   then squash_stream_finish codec
          (set_out stream 0 SQUASH_SPLICE_BUF_SIZE) in_buf out_buf w
   else squash_stream_process codec
          (set_out stream 0 SQUASH_SPLICE_BUF_SIZE) in_buf out_buf w)
  = ((res1, s1, out1), w1) ->
  status_neg res1 = false ->
  length < total_out s1 ->
  NDEBUG = true \/ total_out s1 - length < SQUASH_SPLICE_BUF_SIZE ->
  (512 < fuel)%nat ->
  exists u' w',
    stream_process_loop codec write_cb length true
                        fuel stream eof in_buf out_buf u w
    = Some ((SQUASH_OK, s1, true, out1), (u', w'))
    /\ delivered u'
       = delivered u
         + ((SQUASH_SPLICE_BUF_SIZE - avail_out s1) - (total_out s1 - length))
    /\ delivered u' = d0 + length.
Proof using budget sink_takes stream_counts.
  intros Htot Hdel Estep Hneg Hover Hassert Hfuel.
  destruct fuel as [| fuel]; [lia |].
  destruct (stream_counts eof _ _ _ _ Estep) as [Hav Htot1];
    [cbn [set_out avail_out]; unfold SQUASH_SPLICE_BUF_SIZE; lia | exact Hneg |].
  cbn [set_out avail_out total_out] in Hav, Htot1.
  pose proof budget as Hb.
  cbn [stream_process_loop]. rewrite Estep, Hneg. cbn [andb].
  unfold SQUASH_SPLICE_BUF_SIZE in *.
  destruct (Z.gtb_spec (total_out s1) length) as [_ | Hin]; [| lia].
  cbn [andb].
  rewrite (sub_sz_exact (a := 512) (b := avail_out s1)) by lia.
  rewrite (sub_sz_exact (a := total_out s1) (b := length)) by lia.
  rewrite sub_sz_exact by lia.
  assert (Hpass : negb NDEBUG && negb (total_out s1 - length <? 512) = false).
  { destruct Hassert as [-> | Hlt]; [reflexivity |].
    destruct (Z.ltb_spec (total_out s1 - length) 512); [| lia].
    apply andb_false_r. }
  rewrite Hpass.
  destruct (@stream_write_loop_ends
              (S fuel) out1 (512 - avail_out s1 - (total_out s1 - length))
              u w1) as [u' [w' Ew]]; [lia | lia |].
  rewrite Ew. cbn [status_eqb status_value Z.eqb Pos.eqb].
  exists u', w'. split; [reflexivity |].
  apply stream_write_loop_delivers in Ew; [| lia].
  split; lia.
Qed.

(** X19.  Decompressing with a budget of [length] bytes through the stream
    loop, with a working sink and a stream that counts what it emits: when
    [squash_splice_custom_codec_with_options] returns, the sink has
    received no more than [length] bytes, whatever the status. *)
Theorem stream_splice_keeps_the_output_budget
        (cast : FileSpliceCast U) fuel scratch u options w res u' w' :
  impl_splice codec = None ->
  impl_process_stream codec = true ->
  squash_splice_custom_codec_with_options
    cast fuel scratch codec SQUASH_STREAM_DECOMPRESS write_cb read_cb u
    length options w
  = Some (res, (u', w')) ->
  delivered u <= delivered u' <= delivered u + length.
Proof using budget sink_takes source_keeps stream_counts stream_starts.
  intros Hsplice Hstream. pose proof budget as Hb.
  unfold squash_splice_custom_codec_with_options. rewrite Hsplice, Hstream.
  cbn [stream_type_eqb andb].
  destruct (Z.eqb_spec length 0) as [E | _]; [lia |]. cbn [negb].
  unfold splice_stream_loop.
  destruct (squash_stream_new_codec_with_options
              codec SQUASH_STREAM_DECOMPRESS options w)
    as [[stream |] w1] eqn:Enew;
    [| intros H; inversion H; subst; lia].
  apply stream_starts in Enew.
  destruct (malloc SQUASH_SPLICE_BUF_SIZE w1) as [in_ok w2].
  destruct (malloc SQUASH_SPLICE_BUF_SIZE w2) as [out_ok w3].
  destruct (negb in_ok || negb out_ok); [intros H; inversion H; subst; lia |].
  destruct (stream_read_loop codec write_cb read_cb length false true fuel
                             stream false scratch scratch u w3)
    as [[[res1 s1] [u2 w4]] |] eqn:Eloop; [| discriminate].
  apply (stream_read_loop_budget _ (delivered u)) in Eloop; [| lia | lia].
  intros H; inversion H; subst. exact (proj1 Eloop).
Qed.

End StreamBudgetProperties.

Lemma pipe_write_takes most :
  0 < most ->
  forall n data u (w : W) res k u' w',
    pipe_write most n data u w = ((res, k), (u', w')) ->
    0 < n ->
    status_neg res = false /\ 0 < k <= n /\ taken u' = taken u + k.
Proof.
  intros Hmost n data u w res k u' w' H Hn. unfold pipe_write in H.
  inversion H; subst. simpl. repeat split; lia.
Qed.

Lemma pipe_read_keeps n u (w : W) res data u' w' :
  pipe_read n u w = ((res, data), (u', w')) -> taken u' = taken u.
Proof.
  unfold pipe_read. destruct (source_chunks u); intros H; inversion H; reflexivity.
Qed.

Lemma copy_step_counts process_stream create_stream :
  forall (finish : bool) s in_buf out_buf (w : W) res s' out' w',
    (if finish
     then squash_stream_finish (stream_codec process_stream create_stream)
                               s in_buf out_buf w
     else squash_stream_process (stream_codec process_stream create_stream)
                                s in_buf out_buf w)
    = ((res, s', out'), w') ->
    0 <= avail_out s ->
    status_neg res = false ->
    0 <= avail_out s' <= avail_out s
    /\ total_out s' = total_out s + (avail_out s - avail_out s').
Proof.
  intros finish s in_buf out_buf w res s' out' w' H Hav _.
  destruct finish; cbn [squash_stream_finish squash_stream_process stream_codec] in H;
    unfold copy_step in H; inversion H; subst; cbn [avail_out total_out]; lia.
Qed.

Lemma stream_codec_starts process_stream create_stream :
  forall stream_type (options : unit) (w : W) s w',
    squash_stream_new_codec_with_options
      (stream_codec process_stream create_stream) stream_type options w
    = (Some s, w') ->
    total_out s = 0.
Proof.
  intros stream_type options w s w' H. inversion H. reflexivity.
Qed.

(** C6 fails on the code where assertions are on.  The cut at the budget
    follows [assert (overrun < SQUASH_SPLICE_BUF_SIZE)], and a step can
    overshoot by the whole buffer.  With a budget of 512 bytes and a stream
    that fills the output buffer twice, the first step brings [total_out]
    to 512, which is not above the budget, so the loop goes on; the second
    brings it to 1024, an overshoot of 512, and the assertion stops the
    program: whatever the fuel, the call does not return.  The same splice
    in a build that defines [NDEBUG] returns OK, the sink holding exactly
    the 512 bytes of the budget, the second step cut down to nothing.  With
    a budget of 511 bytes the first step overshoots by 1, and the build
    with assertions cuts it as the spec says. *)
Theorem C6_overshoot_of_a_full_buffer_fails_the_assertion :
  (forall fuel,
      squash_splice_custom_codec_with_options
        (X := five_byte_file None) pipe_cast fuel [] (stream_codec true true)
        SQUASH_STREAM_DECOMPRESS (pipe_write 512) pipe_take
        two_full_buffers 512 tt []
      = None)
  /\ squash_splice_custom_codec_with_options
       (X := release_build (five_byte_file None)) pipe_cast 5 []
       (stream_codec true true)
       SQUASH_STREAM_DECOMPRESS (pipe_write 512) pipe_take
       two_full_buffers 512 tt []
     = Some (SQUASH_OK,
             (mkPipe [] (repeat "a"%byte 512) 512 2 1,
              [CallProcess false (repeat "a"%byte 512);
               CallProcess false (repeat "a"%byte 512);
               CallMalloc 512; CallMalloc 512]))
  /\ squash_splice_custom_codec_with_options
       (X := five_byte_file None) pipe_cast 5 [] (stream_codec true true)
       SQUASH_STREAM_DECOMPRESS (pipe_write 512) pipe_take
       two_full_buffers 511 tt []
     = Some (SQUASH_OK,
             (mkPipe [repeat "a"%byte 512] (repeat "a"%byte 511) 511 1 1,
              [CallProcess false (repeat "a"%byte 512);
               CallMalloc 512; CallMalloc 512])).
Proof.
  split; [| split].
  - intros fuel. destruct fuel as [| [| fuel]]; vm_compute; reflexivity.
  - vm_compute. reflexivity.
  - vm_compute. reflexivity.
Qed.

(** C4 fails on the code.  A sink that answers every write with an error:
    the stream loop goes on reading and processing the rest of the input
    and returns OK.  A sink that takes one byte per call: every retry is
    handed the output buffer from its start, so the sink receives the first
    byte three times.  The accumulator, given the failing sink, returns its
    error. *)
Theorem C4_failed_write_does_not_stop_the_splice :
  squash_splice_custom_codec_with_options
    (X := five_byte_file None) pipe_cast 5 [] (stream_codec true true)
    SQUASH_STREAM_COMPRESS pipe_write_fails pipe_read
    (mkPipe [["a"; "b"]; ["c"; "d"]]%byte [] 0 0 0) 0 tt []
  = Some (SQUASH_OK,
          (mkPipe [] [] 0 3 2,
           [CallProcess true []; CallProcess false ["c"; "d"]%byte;
            CallProcess false ["a"; "b"]%byte; CallMalloc 512; CallMalloc 512]))
  /\ squash_splice_custom_codec_with_options
       (X := five_byte_file None) pipe_cast 5 [] (stream_codec true true)
       SQUASH_STREAM_COMPRESS (pipe_write 1) pipe_read
       (mkPipe [["a"; "b"; "c"]]%byte [] 0 0 0) 0 tt []
     = Some (SQUASH_OK,
             (mkPipe [] ["a"; "a"; "a"]%byte 3 2 3,
              [CallProcess true []; CallProcess false ["a"; "b"; "c"]%byte;
               CallMalloc 512; CallMalloc 512]))
  /\ squash_splice_custom_codec_with_options
       (X := five_byte_file None) pipe_cast 5 [] (buffer_codec 0 0 0)
       SQUASH_STREAM_COMPRESS pipe_write_fails pipe_read
       (mkPipe [["a"; "b"]; ["c"; "d"]]%byte [] 0 0 0) 0 tt []
     = Some (SQUASH_IO,
             (mkPipe [] [] 0 3 1,
              [CallCompress 4; CallMalloc 4; CallSetSize 516;
               CallSetSize 514; CallSetSize 512])).
Proof. repeat split. Qed.

(** * More properties of the code *)

(** ** The limiter keeps its budget *)

Section LimiterBudgetProperties.

Context {P : Platform} {U : Type}.

Lemma zlen_nonneg (l : list byte) : 0 <= zlen l.
Proof. unfold zlen. lia. Qed.

(** X1.  The limited read wrapper when compressing, with a budget in range
    and a user callback that returns no more bytes than it is asked for:
    the bytes returned never exceed what was left of the budget, the budget
    stays non-negative, and after a positive status it has gone down by
    exactly the number of bytes returned. *)
Theorem limited_read_stays_within_budget
        (ctx : SquashSpliceLimitedData U) (n : Z) (w : W)
        res data ctx' w' :
  stream_type ctx = SQUASH_STREAM_COMPRESS ->
  0 <= remaining ctx < SIZE_MODULUS ->
  0 <= n ->
  (forall res0 data0 u0 w0,
      read_func ctx (Z.min n (remaining ctx)) (user_data ctx) w
      = ((res0, data0), (u0, w0)) ->
      zlen data0 <= Z.min n (remaining ctx)) ->
  squash_splice_custom_limited_read n ctx w = ((res, data), (ctx', w')) ->
  zlen data <= Z.min n (remaining ctx)
  /\ 0 <= remaining ctx' <= remaining ctx
  /\ (status_pos res = true -> remaining ctx' = remaining ctx - zlen data)
  /\ read_func ctx' = read_func ctx
  /\ stream_type ctx' = stream_type ctx.
Proof.
  intros Hdir Hrange Hn Hhonest.
  unfold squash_splice_custom_limited_read. rewrite Hdir. cbn [stream_type_eqb andb].
  destruct (Z.eqb_spec (remaining ctx) 0) as [Hz | Hnz].
  - intros H; inversion H; subst. cbn. repeat split; try lia. exact Hdir.
  - set (m := if n >? remaining ctx then remaining ctx else n).
    assert (Hm : m = Z.min n (remaining ctx)).
    { subst m. destruct (Z.gtb_spec n (remaining ctx)); lia. }
    destruct (read_func ctx m (user_data ctx) w) as [[res0 data0] [u0 w0]] eqn:E.
    assert (Hlen : zlen data0 <= m).
    { rewrite Hm. apply (Hhonest res0 data0 u0 w0). rewrite <- Hm. exact E. }
    pose proof (zlen_nonneg data0) as Hnn.
    destruct (status_pos res0) eqn:Hpos; intros H; inversion H; subst;
      cbn [remaining set_remaining set_user_data read_func stream_type].
    + rewrite sub_sz_exact by lia. repeat split; try lia; exact Hdir.
    + repeat split; try lia; try exact Hdir.
      intros Hcontra. rewrite Hpos in Hcontra. discriminate.
Qed.

(** X2.  The limited write wrapper when decompressing with a budget of [L]
    bytes and a user callback that reports no more bytes than it is asked
    to write: what is left of the budget and what was written still add up
    to [L] after the call, so no more than [L] bytes are ever written. *)
Theorem limited_write_conserves_budget
        (L : Z) (ctx : SquashSpliceLimitedData U) (n : Z) (data : list byte) (w : W)
        res k ctx' w' :
  stream_type ctx = SQUASH_STREAM_DECOMPRESS ->
  L < SIZE_MODULUS ->
  limited_budget_ok L ctx ->
  (forall res0 k0 u0 w0,
      write_func ctx (Z.min n (remaining ctx)) data (user_data ctx) w
      = ((res0, k0), (u0, w0)) ->
      0 <= k0 <= Z.min n (remaining ctx)) ->
  squash_splice_custom_limited_write n data ctx w = ((res, k), (ctx', w')) ->
  limited_budget_ok L ctx'
  /\ written ctx' <= L
  /\ write_func ctx' = write_func ctx
  /\ stream_type ctx' = stream_type ctx.
Proof.
  intros Hdir HL [Hrem [Hwr Hsum]] Hhonest.
  unfold squash_splice_custom_limited_write. rewrite Hdir.
  cbn [stream_type_eqb andb].
  set (m := if n >? remaining ctx then remaining ctx else n).
  assert (Hm : m = Z.min n (remaining ctx)).
  { subst m. destruct (Z.gtb_spec n (remaining ctx)); lia. }
  destruct (Z.eqb_spec m 0) as [Hz | Hnz].
  - intros H; inversion H; subst. unfold limited_budget_ok.
    repeat split; try lia; exact Hdir.
  - destruct (write_func ctx m data (user_data ctx) w) as [[res0 k0] [u0 w0]] eqn:E.
    assert (Hk : 0 <= k0 <= m).
    { rewrite Hm. apply (Hhonest res0 k0 u0 w0). rewrite <- Hm. exact E. }
    destruct (status_neg res0); intros H; inversion H; subst;
      unfold limited_budget_ok;
      cbn [remaining written set_remaining set_written set_user_data
           write_func stream_type].
    + repeat split; try lia; exact Hdir.
    + rewrite sub_sz_exact by lia.
      unfold add_sz, to_size_t. rewrite Z.mod_small by lia.
      repeat split; try lia; exact Hdir.
Qed.

End LimiterBudgetProperties.

Lemma X1_witness :
  remaining
    (fst (snd (squash_splice_custom_limited_read 10 reading_limited_pipe [])))
  = 3 - 2.
Proof.
  refine (proj1 (proj2 (proj2
    (@limited_read_stays_within_budget
       log_platform Pipe reading_limited_pipe 10 []
       SQUASH_OK ["a"; "b"]%byte
       (mkLimited (pipe_write 512) pipe_read (mkPipe [] [] 0 1 0)
                  SQUASH_STREAM_COMPRESS 1 0) []
       eq_refl
       ltac:(vm_compute; split; [discriminate | reflexivity])
       ltac:(vm_compute; discriminate)
       _ eq_refl))) eq_refl).
  intros res0 data0 u0 w0 H. vm_compute in H. inversion H; subst.
  vm_compute. discriminate.
Defined.

Lemma X2_witness :
  limited_budget_ok
    5 (fst (snd (squash_splice_custom_limited_write
                   9 ["c"; "d"; "e"; "f"]%byte writing_limited_pipe []))).
Proof.
  refine (proj1
    (@limited_write_conserves_budget
       log_platform Pipe 5 writing_limited_pipe 9 ["c"; "d"; "e"; "f"]%byte []
       SQUASH_OK 3
       (mkLimited (pipe_write 512) pipe_read
                  (mkPipe [] ["a"; "b"; "c"; "d"; "e"]%byte 5 0 2)
                  SQUASH_STREAM_DECOMPRESS 0 5) []
       eq_refl eq_refl
       ltac:(vm_compute; repeat split; discriminate)
       _ eq_refl)).
  intros res0 k0 u0 w0 H. vm_compute in H. inversion H; subst.
  vm_compute. split; discriminate.
Defined.

(** ** The file callbacks *)

Section FileCallbackProperties.

Context {P : Platform} {X : Externals}.

(** X3.  [squash_file_splice_read] when compressing with a budget
    ([length] not 0), the position within the budget and an [fread] that
    returns no more bytes than it is asked for: the bytes returned never
    exceed the request nor what is left of the budget, the position moves
    on by the bytes returned and stays within the budget; at the end of the
    budget the answer is END_OF_STREAM with no bytes and the file is not
    read. *)
Theorem file_splice_read_stays_within_length
        (ctx : SquashFileSpliceData) (n : Z) (w : W) res data ctx' w' :
  file_stream_type ctx = SQUASH_STREAM_COMPRESS ->
  file_length ctx <> 0 ->
  0 <= file_pos ctx <= file_length ctx ->
  file_length ctx < SIZE_MODULUS ->
  0 <= n ->
  (forall m fp w0, 0 <= m -> zlen (fst (SQUASH_FREAD_UNLOCKED m fp w0)) <= m) ->
  squash_file_splice_read n ctx w = ((res, data), (ctx', w')) ->
  zlen data <= Z.min n (file_length ctx - file_pos ctx)
  /\ file_pos ctx' = file_pos ctx + zlen data
  /\ file_pos ctx' <= file_length ctx'
  /\ file_length ctx' = file_length ctx
  /\ (file_pos ctx = file_length ctx ->
      res = SQUASH_END_OF_STREAM /\ data = [] /\ w' = w).
Proof.
  intros Hdir Hlen Hpos Hmod Hn Hfread.
  unfold squash_file_splice_read. rewrite Hdir. cbn [stream_type_eqb].
  destruct (Z.eqb_spec (file_length ctx) 0) as [E | _]; [contradiction |].
  cbn [negb andb].
  rewrite sub_sz_exact by lia.
  destruct (Z.eqb_spec (file_length ctx - file_pos ctx) 0) as [Hend | Hleft].
  - intros H; inversion H; subst. cbn. repeat split; lia.
  - set (requested := if n <? file_length ctx - file_pos ctx
                      then n else file_length ctx - file_pos ctx).
    assert (Hreq : requested = Z.min n (file_length ctx - file_pos ctx)).
    { subst requested. destruct (Z.ltb_spec n (file_length ctx - file_pos ctx)); lia. }
    pose proof (Hfread requested (fp_in ctx) w ltac:(lia)) as Hgot.
    destruct (SQUASH_FREAD_UNLOCKED requested (fp_in ctx) w) as [got w1].
    cbn [fst] in Hgot. pose proof (zlen_nonneg got) as Hnn.
    assert (Hadd : add_sz (file_pos ctx) (zlen got) = file_pos ctx + zlen got).
    { unfold add_sz, to_size_t. apply Z.mod_small. lia. }
    destruct (zlen got =? 0); intros H; inversion H; subst;
      cbn [file_pos file_length set_file_pos]; rewrite Hadd;
      (repeat split; try lia); intros Hcontra; lia.
Qed.


(** X10.  The preference is never left undecided: from statics splice.c can
    be in, every call of the dispatcher that returns leaves the flag fired
    and [squash_splice_try_mmap] at 1, 2 or 3, which is again a state
    splice.c can be in. *)
Theorem dispatcher_decides_preference
        (fuel : nat) (scratch : list byte) (codec : SquashCodec)
        (stream_type : SquashStreamType) (fp_out fp_in : FILE) (length : Z)
        (options : SquashOptions) (g : SpliceStatics) (w : W) res g' w' :
  statics_ok g ->
  squash_splice_codec_with_options
    fuel scratch codec stream_type fp_out fp_in length options g w
  = Some (res, (g', w')) ->
  squash_splice_detect_once g' = true
  /\ (squash_splice_try_mmap g' = 1 \/ squash_splice_try_mmap g' = 2
      \/ squash_splice_try_mmap g' = 3)
  /\ statics_ok g'.
Proof.
  intros Hok Hrun. apply dispatcher_statics in Hrun. subst g'.
  assert (Hboth :
    squash_splice_detect_once (call_once_detect g w) = true
    /\ (squash_splice_try_mmap (call_once_detect g w) = 1
        \/ squash_splice_try_mmap (call_once_detect g w) = 2
        \/ squash_splice_try_mmap (call_once_detect g w) = 3)).
  { unfold call_once_detect. destruct (squash_splice_detect_once g) eqn:F.
    - split; [exact F | exact (Hok F)].
    - cbn. split; [reflexivity |]. unfold squash_splice_detect_enable.
      destruct (getenv "SQUASH_MAP_SPLICE" w) as [ev |]; [| auto].
      destruct (String.eqb ev "yes"); [auto |].
      destruct (String.eqb ev "always"); [auto |].
      destruct (String.eqb ev "no"); auto. }
  destruct Hboth as [Hflag Hval]. split; [exact Hflag |]. split; [exact Hval |].
  intros _. exact Hval.
Qed.

End FileCallbackProperties.

(** ** The page size when the query fails *)

(** X11.  When the first query for the page size fails, 8192 is what every
    call returns, also the later ones whose query would have succeeded. *)
Theorem page_size_falls_back_to_8192 (q : PageSizeQuery) (qs : list PageSizeQuery) :
  page_size_query_failed q ->
  page_size_calls 0 (q :: qs) = repeat 8192 (S (List.length qs)).
Proof.
  intros Hfailed.
  assert (Hv : page_size_of_query q = 8192).
  { destruct q as [ps | sres ps]; simpl in *.
    - subst ps. reflexivity.
    - destruct (Z.eqb_spec sres 0); [contradiction | reflexivity]. }
  simpl. rewrite Hv. f_equal. apply page_size_calls_cached. discriminate.
Qed.

(** ** The snappy plugin *)

Section SnappyProperties.

Context {L : SnappyLibrary}.

(** X15.  The buffer functions of the snappy plugin return OK exactly when
    the library returns SNAPPY_OK, BUFFER_FULL exactly when it returns
    SNAPPY_BUFFER_TOO_SMALL, and FAILED in every other case; the length and
    the bytes are the library's. *)
Theorem snappy_buffer_statuses
        (capacity : Z) (input : list byte) (input_length : Z) :
  (forall res len out,
      squash_snappy_decompress_buffer capacity input input_length = (res, len, out) ->
      exists e,
        snappy_uncompress input input_length capacity = (e, len, out)
        /\ (res = SQUASH_OK <-> e = SNAPPY_OK)
        /\ (res = SQUASH_BUFFER_FULL <-> e = SNAPPY_BUFFER_TOO_SMALL)
        /\ (res = SQUASH_OK \/ res = SQUASH_BUFFER_FULL \/ res = SQUASH_FAILED))
  /\ (forall res len out,
         squash_snappy_compress_buffer capacity input input_length = (res, len, out) ->
         exists e,
           snappy_compress input input_length capacity = (e, len, out)
           /\ (res = SQUASH_OK <-> e = SNAPPY_OK)
           /\ (res = SQUASH_BUFFER_FULL <-> e = SNAPPY_BUFFER_TOO_SMALL)
           /\ (res = SQUASH_OK \/ res = SQUASH_BUFFER_FULL \/ res = SQUASH_FAILED)).
Proof.
  split; intros res len out;
    [unfold squash_snappy_decompress_buffer;
     destruct (snappy_uncompress input input_length capacity) as [[e len0] out0]
    |unfold squash_snappy_compress_buffer;
     destruct (snappy_compress input input_length capacity) as [[e len0] out0]];
    intros H; inversion H; subst; exists e; (split; [reflexivity |]);
    destruct e; cbn; (repeat split; try discriminate; auto).
Qed.

(** X16.  [squash_plugin_init_codec] accepts the name "snappy" and no
    other: for any other name it returns UNABLE_TO_LOAD and leaves the
    function table as it found it; for "snappy" it returns OK and the table
    holds the four buffer functions of the plugin. *)
Theorem snappy_plugin_serves_snappy_only (name : string) (funcs : SquashCodecFuncs) :
  (fst (squash_plugin_init_codec name funcs) = SQUASH_OK <-> name = "snappy"%string)
  /\ (name <> "snappy"%string ->
      squash_plugin_init_codec name funcs = (SQUASH_UNABLE_TO_LOAD, funcs))
  /\ (name = "snappy"%string ->
      snd (squash_plugin_init_codec name funcs)
      = mkFuncs (Some squash_snappy_get_uncompressed_size)
                (Some squash_snappy_get_max_compressed_size)
                (Some squash_snappy_decompress_buffer)
                (Some squash_snappy_compress_buffer)).
Proof.
  unfold squash_plugin_init_codec.
  destruct (String.eqb_spec "snappy" name) as [E | Hne].
  - subst name. repeat split; auto. intros Hcontra. now contradiction Hcontra.
  - cbn. split; [| split].
    + split; [discriminate | intros E; subst; now contradiction Hne].
    + reflexivity.
    + intros E. subst. now contradiction Hne.
Qed.

End SnappyProperties.

(** ** The accumulator *)

Lemma firstn_plus (l : list byte) (a b : nat) :
  firstn (a + b) l = firstn a l ++ firstn b (skipn a l).
Proof.
  revert l. induction a as [| a IH]; intros l; [reflexivity |].
  destruct l as [| x l]; simpl.
  - now rewrite firstn_nil.
  - now rewrite IH.
Qed.

Lemma skipn_plus (l : list byte) (a b : nat) :
  skipn b (skipn a l) = skipn (a + b) l.
Proof.
  revert l. induction a as [| a IH]; intros l; [reflexivity |].
  destruct l as [| x l]; simpl; [now rewrite skipn_nil | apply IH].
Qed.

Section AccumulatorProperties.

Context {P : Platform} {X : Externals} {U : Type}.
Variable codec : SquashCodec.
Variable write_cb : SquashWriteFunc U.
Variable read_cb : SquashReadFunc U.
Variable options : SquashOptions.

Section Draining.

(** The bytes the sink has received so far. *)
Variable received : U -> list byte.

(** The sink works: asked for [n > 0] bytes it takes the first [k] of them,
    at least one, and returns OK. *)
Hypothesis sink_appends :
  forall n data u w res k u' w',
    write_cb n data u w = ((res, k), (u', w')) ->
    0 < n ->
    res = SQUASH_OK /\ 0 < k <= n
    /\ received u' = received u ++ firstn (Z.to_nat k) data.

Lemma drain_output_appends out_data out_data_size :
  out_data_size < SIZE_MODULUS ->
  forall fuel bytes_written u w,
    0 <= bytes_written < out_data_size ->
    (Z.to_nat (out_data_size - bytes_written) <= fuel)%nat ->
    exists u' w',
      drain_output write_cb fuel out_data out_data_size bytes_written u w
      = Some (SQUASH_OK, (u', w'))
      /\ received u'
         = received u
           ++ firstn (Z.to_nat (out_data_size - bytes_written))
                     (skipn (Z.to_nat bytes_written) out_data).
Proof.
  intros Hmod. induction fuel as [| fuel IH]; intros b u w Hb Hfuel; [lia |].
  cbn [drain_output]. rewrite sub_sz_exact by lia.
  destruct (write_cb (out_data_size - b) (skipn (Z.to_nat b) out_data) u w)
    as [[res k] [u1 w1]] eqn:E.
  destruct (sink_appends E) as [Hres [Hk Hrec]]; [lia |].
  subst res. cbn [status_eqb status_value Z.eqb Pos.eqb negb].
  assert (Hadd : add_sz b k = b + k).
  { unfold add_sz, to_size_t. apply Z.mod_small. lia. }
  rewrite Hadd.
  destruct (Z.eqb_spec (b + k) out_data_size) as [Hdone | Hmore].
  - exists u1, w1. split; [reflexivity |].
    rewrite Hrec. do 2 f_equal. lia.
  - destruct (IH (b + k) u1 w1) as [u' [w' [Hrun Hrec']]]; [lia | lia |].
    exists u', w'. split; [exact Hrun |].
    rewrite Hrec', Hrec, <- app_assoc. f_equal.
    replace (Z.to_nat (out_data_size - b))
      with (Z.to_nat k + Z.to_nat (out_data_size - (b + k)))%nat by lia.
    rewrite firstn_plus, skipn_plus. do 3 f_equal. lia.
Qed.

(** X5.  The write loop of the accumulator, on an output of
    [out_data_size > 0] bytes and a working sink that may take less than it
    is offered: with fuel for one byte per call the loop ends with OK, and
    the sink has received the output, each retry having been handed the
    part not yet written. *)
Theorem drain_output_delivers_the_output out_data out_data_size fuel u w :
  0 < out_data_size < SIZE_MODULUS ->
  (Z.to_nat out_data_size <= fuel)%nat ->
  exists u' w',
    drain_output write_cb fuel out_data out_data_size 0 u w
    = Some (SQUASH_OK, (u', w'))
    /\ received u' = received u ++ firstn (Z.to_nat out_data_size) out_data.
Proof.
  intros Hsize Hfuel.
  destruct (@drain_output_appends out_data out_data_size (proj2 Hsize) fuel 0 u w)
    as [u' [w' [Hrun Hrec]]]; [lia | rewrite Z.sub_0_r; exact Hfuel |].
  exists u', w'. split; [exact Hrun |].
  rewrite Hrec, Z.sub_0_r. reflexivity.
Qed.

End Draining.

(** X6.  Reading the input under a budget of [length] bytes, with a read
    callback that returns no more bytes than it is asked for: the buffer
    that comes out extends the one that went in and holds at most [length]
    bytes. *)
Theorem accumulate_input_stays_within_budget
        (length : Z) fuel buffer u w buffer' u' w' :
  0 < length < SIZE_MODULUS ->
  (forall n u0 w0, 0 <= n -> zlen (snd (fst (read_cb n u0 w0))) <= n) ->
  zlen buffer <= length ->
  accumulate_input read_cb length true fuel buffer u w
  = Some (inr buffer', (u', w')) ->
  zlen buffer' <= length /\ exists tail, buffer' = buffer ++ tail.
Proof.
  intros Hlen Hhonest. revert buffer u w.
  induction fuel as [| fuel IH]; intros buffer u w Hbuf; [discriminate |].
  cbn [accumulate_input]. pose proof (zlen_nonneg buffer) as Hnn.
  rewrite sub_sz_exact by lia.
  destruct (squash_buffer_set_size
              (add_sz (zlen buffer) (length - zlen buffer)) w) as [[|] w1];
    cbn [negb]; [| discriminate].
  pose proof (Hhonest (length - zlen buffer) u w1 ltac:(lia)) as Hgot.
  destruct (read_cb (length - zlen buffer) u w1) as [[res data] [u1 w2]].
  cbn [fst snd] in Hgot.
  destruct (status_neg res); [discriminate |].
  assert (Hnew : zlen (buffer ++ data) = zlen buffer + zlen data).
  { unfold zlen. rewrite length_app. lia. }
  destruct (status_eqb res SQUASH_END_OF_STREAM
            || true && (zlen (buffer ++ data) =? length)).
  - intros H; inversion H; subst. split; [lia | now exists data].
  - intros H. apply IH in H; [| lia].
    destruct H as [Hle [tail Htail]]. split; [exact Hle |].
    exists (data ++ tail). now rewrite app_assoc.
Qed.

(** X12.  What the accumulator gives up on before writing anything.  When
    decompressing with a codec that knows the uncompressed size and reports
    0 for the input, the result is INVALID_BUFFER: nothing is allocated,
    the codec is not asked to decompress and the sink is not called.  When
    compressing, a status of the codec other than OK is the result, and the
    sink is not called. *)
Theorem accumulator_gives_up_before_writing
        (length : Z) (limit_input limit_output : bool) fuel u w buffer u1 w1 :
  accumulate_input read_cb length limit_input fuel [] u w
  = Some (inr buffer, (u1, w1)) ->
  (knows_uncompressed_size codec = true ->
   squash_codec_get_uncompressed_size codec (zlen buffer) buffer = 0 ->
   splice_accumulator codec write_cb read_cb length limit_input limit_output
                      options fuel SQUASH_STREAM_DECOMPRESS u w
   = Some (SQUASH_INVALID_BUFFER, (u1, w1)))
  /\ (forall w2 res c out w3,
         malloc (squash_codec_get_max_compressed_size codec (zlen buffer)) w1
         = (true, w2) ->
         squash_codec_compress_with_options
           codec (squash_codec_get_max_compressed_size codec (zlen buffer))
           (zlen buffer) buffer options w2
         = ((res, c, out), w3) ->
         res <> SQUASH_OK ->
         splice_accumulator codec write_cb read_cb length limit_input limit_output
                            options fuel SQUASH_STREAM_COMPRESS u w
         = Some (res, (u1, w3))).
Proof.
  intros Hread. split.
  - intros Hknows Hzero. unfold splice_accumulator, transform_buffer.
    rewrite Hread, Hknows, Hzero. reflexivity.
  - intros w2 res c out w3 Hm Hc Hne. unfold splice_accumulator, transform_buffer.
    rewrite Hread, Hm. cbn [negb]. rewrite Hc.
    rewrite (status_eqb_neq Hne). reflexivity.
Qed.

End AccumulatorProperties.

(** ** The stream loop *)

Section StreamLoopProperties.

Context {P : Platform} {X : Externals} {U : Type}.
Variable codec : SquashCodec.
Variable write_cb : SquashWriteFunc U.
Variable read_cb : SquashReadFunc U.
Variable length : Z.

Lemma stream_process_loop_leaves_processing
      (limit_output : bool) fuel stream eof in_buf out_buf u w res stream' eof' out_buf' uw :
  stream_process_loop codec write_cb length limit_output
                      fuel stream eof in_buf out_buf u w
  = Some ((res, stream', eof', out_buf'), uw) ->
  res <> SQUASH_PROCESSING.
Proof.
  revert stream eof out_buf u w.
  induction fuel as [| fuel IH]; intros stream eof out_buf u w; [discriminate |].
  cbn [stream_process_loop].
  destruct (if eof
            then squash_stream_finish codec
                   (set_out stream 0 SQUASH_SPLICE_BUF_SIZE) in_buf out_buf w
            else squash_stream_process codec
                   (set_out stream 0 SQUASH_SPLICE_BUF_SIZE) in_buf out_buf w)
    as [[[res1 s1] out1] w1].
  destruct (status_neg res1) eqn:Hneg.
  - intros H; inversion H; subst. intros ->. discriminate Hneg.
  - match goal with
    | |- context [if ?c then None else _] => destruct c; [discriminate |]
    end.
    match goal with
    | |- context [stream_write_loop ?wc ?f ?ob ?n ?uu ?ww] =>
        destruct (stream_write_loop wc f ob n uu ww) as [[u2 w2] |];
          [| discriminate]
    end.
    match goal with
    | |- context [status_eqb ?r SQUASH_PROCESSING] =>
        destruct (status_eqb r SQUASH_PROCESSING) eqn:Eproc
    end.
    + apply IH.
    + intros H; inversion H; subst. intros Hcontra.
      rewrite Hcontra in Eproc. discriminate Eproc.
Qed.

Lemma stream_read_loop_statuses
      (limit_input limit_output : bool) fuel stream eof in_buf out_buf u w res stream' uw :
  stream_read_loop codec write_cb read_cb length limit_input limit_output
                   fuel stream eof in_buf out_buf u w
  = Some ((res, stream'), uw) ->
  status_neg res = true \/ res = SQUASH_OK \/ res = SQUASH_END_OF_STREAM.
Proof.
  revert stream eof in_buf out_buf u w.
  induction fuel as [| fuel IH]; intros stream eof in_buf out_buf u w;
    [discriminate |].
  cbn [stream_read_loop].
  match goal with
  | |- context [read_cb ?n u w] =>
      destruct (read_cb n u w) as [[res0 data] [u1 w1]]
  end.
  destruct (status_neg res0) eqn:Hneg0.
  - intros H; inversion H; subst. now left.
  - match goal with
    | |- context [stream_process_loop ?c ?wc ?l ?lo ?f ?s ?e ?ib ?ob ?uu ?ww] =>
        destruct (stream_process_loop c wc l lo f s e ib ob uu ww)
          as [[[[[res1 s1] eof1] out1] [u2 w2]] |] eqn:Einner; [| discriminate]
    end.
    apply stream_process_loop_leaves_processing in Einner.
    destruct (status_eqb res1 SQUASH_OK && negb eof1); [apply IH |].
    intros H; inversion H; subst.
    destruct res; cbn; auto; now contradiction Einner.
Qed.

(** X8.  For a codec with [process_stream] and no native splice, a splice
    that returns returns OK or a negative status: PROCESSING and
    END_OF_STREAM never reach the caller. *)
Theorem stream_splice_returns_ok_or_an_error
        (cast : FileSpliceCast U) fuel scratch stream_type user_data options w
        res uw :
  impl_splice codec = None ->
  impl_process_stream codec = true ->
  squash_splice_custom_codec_with_options
    cast fuel scratch codec stream_type write_cb read_cb user_data length options w
  = Some (res, uw) ->
  res = SQUASH_OK \/ status_neg res = true.
Proof.
  intros Hsplice Hstream. unfold squash_splice_custom_codec_with_options.
  rewrite Hsplice, Hstream. unfold splice_stream_loop, squash_error.
  destruct (squash_stream_new_codec_with_options codec stream_type options w)
    as [[stream |] w1]; [| intros H; inversion H; now right].
  destruct (malloc SQUASH_SPLICE_BUF_SIZE w1) as [in_ok w2].
  destruct (malloc SQUASH_SPLICE_BUF_SIZE w2) as [out_ok w3].
  destruct (negb in_ok || negb out_ok); [intros H; inversion H; now right |].
  match goal with
  | |- context [stream_read_loop ?c ?wc ?rc ?l ?li ?lo ?f ?s ?e ?ib ?ob ?uu ?ww] =>
      destruct (stream_read_loop c wc rc l li lo f s e ib ob uu ww)
        as [[[res1 s1] uw1] |] eqn:Eloop; [| discriminate]
  end.
  apply stream_read_loop_statuses in Eloop.
  intros H; inversion H; subst.
  destruct Eloop as [Hneg | [-> | ->]]; cbn; auto.
  destruct (status_eqb res1 SQUASH_END_OF_STREAM) eqn:E; [now left | now right].
Qed.

Lemma stream_read_loop_clamped
      (limit_input limit_output : bool) fuel stream eof in_buf out_buf u w :
  stream_read_loop codec write_cb (clamp_request read_cb) length
                   limit_input limit_output fuel stream eof in_buf out_buf u w
  = stream_read_loop codec write_cb read_cb length
                     limit_input limit_output fuel stream eof in_buf out_buf u w.
Proof.
  revert stream eof in_buf out_buf u w.
  induction fuel as [| fuel IH]; intros stream eof in_buf out_buf u w;
    [reflexivity |].
  cbn [stream_read_loop]. unfold clamp_request at 1.
  set (avail := if limit_input
                then (let a := sub_sz length (total_in stream) in
                      if a >? SQUASH_SPLICE_BUF_SIZE
                      then SQUASH_SPLICE_BUF_SIZE else a)
                else SQUASH_SPLICE_BUF_SIZE).
  assert (Havail : Z.max 0 (Z.min avail SQUASH_SPLICE_BUF_SIZE) = avail).
  { subst avail. unfold SQUASH_SPLICE_BUF_SIZE. destruct limit_input; [| reflexivity].
    cbv zeta.
    assert (0 <= sub_sz length (total_in stream)).
    { unfold sub_sz, to_size_t, SIZE_MODULUS. apply Z.mod_pos_bound. reflexivity. }
    destruct (Z.gtb_spec (sub_sz length (total_in stream)) 512); lia. }
  rewrite Havail.
  destruct (read_cb avail u w) as [[res0 data] [u1 w1]].
  destruct (status_neg res0); [reflexivity |].
  match goal with
  | |- context [stream_process_loop ?c ?wc ?l ?lo ?f ?s ?e ?ib ?ob ?uu ?ww] =>
      destruct (stream_process_loop c wc l lo f s e ib ob uu ww)
        as [[[[[res1 s1] eof1] out1] [u2 w2]] |]; [| reflexivity]
  end.
  destruct (status_eqb res1 SQUASH_OK && negb eof1); [apply IH | reflexivity].
Qed.

(** X9.  The stream loop never asks its read callback for more bytes than
    the input scratch buffer holds, nor for a negative number: a callback
    that cuts every request down to between 0 and 512 bytes gives the same
    splice. *)
Theorem stream_loop_requests_fit_the_buffer
        (limit_input limit_output : bool) fuel stream_type options scratch u w :
  splice_stream_loop codec write_cb (clamp_request read_cb) length
                     limit_input limit_output fuel stream_type options scratch u w
  = splice_stream_loop codec write_cb read_cb length
                       limit_input limit_output fuel stream_type options scratch u w.
Proof.
  unfold splice_stream_loop.
  destruct (squash_stream_new_codec_with_options codec stream_type options w)
    as [[stream |] w1]; [| reflexivity].
  destruct (malloc SQUASH_SPLICE_BUF_SIZE w1) as [in_ok w2].
  destruct (malloc SQUASH_SPLICE_BUF_SIZE w2) as [out_ok w3].
  destruct (negb in_ok || negb out_ok); [reflexivity |].
  now rewrite stream_read_loop_clamped.
Qed.

End StreamLoopProperties.

(** ** Errors of the read callback *)

Section ReadErrorProperties.

Context {P : Platform} {X : Externals} {U : Type}.
Variable codec : SquashCodec.
Variable write_cb : SquashWriteFunc U.
Variable read_cb : SquashReadFunc U.
Variable length : Z.

Lemma stream_write_loop_keeps_latch fuel out_buf n u l w u' l' w' :
  stream_write_loop (latch_write write_cb) fuel out_buf n (u, l) w
  = Some ((u', l'), w') ->
  l' = l.
Proof.
  revert n u w. induction fuel as [| fuel IH]; intros n u w; [discriminate |].
  cbn [stream_write_loop].
  destruct (n =? 0); [intros H; now inversion H |].
  unfold latch_write at 1. cbn [fst snd].
  destruct (write_cb n out_buf u w) as [[res2 k] [u1 w1]].
  destruct (status_neg res2); [intros H; now inversion H | apply IH].
Qed.

Lemma stream_process_loop_keeps_latch
      (limit_output : bool) fuel stream eof in_buf out_buf u l w r u' l' w' :
  stream_process_loop codec (latch_write write_cb) length limit_output
                      fuel stream eof in_buf out_buf (u, l) w
  = Some (r, ((u', l'), w')) ->
  l' = l.
Proof.
  revert stream eof out_buf u w.
  induction fuel as [| fuel IH]; intros stream eof out_buf u w; [discriminate |].
  cbn [stream_process_loop].
  destruct (if eof
            then squash_stream_finish codec
                   (set_out stream 0 SQUASH_SPLICE_BUF_SIZE) in_buf out_buf w
            else squash_stream_process codec
                   (set_out stream 0 SQUASH_SPLICE_BUF_SIZE) in_buf out_buf w)
    as [[[res1 s1] out1] w1].
  destruct (status_neg res1); [intros H; now inversion H |].
  match goal with
  | |- context [if ?c then None else _] => destruct c; [discriminate |]
  end.
  match goal with
  | |- context [stream_write_loop ?wc ?f ?ob ?n ?uu ?ww] =>
      destruct (stream_write_loop wc f ob n uu ww) as [[[u2 l2] w2] |] eqn:Ew;
        [| discriminate]
  end.
  apply stream_write_loop_keeps_latch in Ew. subst l2.
  match goal with
  | |- context [status_eqb ?r0 SQUASH_PROCESSING] =>
      destruct (status_eqb r0 SQUASH_PROCESSING)
  end; [apply IH | intros H; now inversion H].
Qed.

Lemma stream_read_loop_latches
      (limit_input limit_output : bool) fuel stream eof in_buf out_buf u w
      res stream' u' l w' :
  stream_read_loop codec (latch_write write_cb) (latch_read read_cb) length
                   limit_input limit_output fuel stream eof in_buf out_buf (u, None) w
  = Some ((res, stream'), ((u', l), w')) ->
  forall e, l = Some e -> res = e /\ status_neg e = true.
Proof.
  revert stream eof in_buf out_buf u w.
  induction fuel as [| fuel IH]; intros stream eof in_buf out_buf u w;
    [discriminate |].
  cbn [stream_read_loop]. unfold latch_read at 1. cbn [fst snd].
  match goal with
  | |- context [read_cb ?n u w] =>
      destruct (read_cb n u w) as [[res0 data] [u1 w1]]
  end.
  destruct (status_neg res0) eqn:Hneg0.
  - intros H; inversion H; subst. intros e He. inversion He; subst. now split.
  - match goal with
    | |- context [stream_process_loop ?c ?wc ?ll ?lo ?f ?s ?ee ?ib ?ob ?uu ?ww] =>
        destruct (stream_process_loop c wc ll lo f s ee ib ob uu ww)
          as [[[[[res1 s1] eof1] out1] [[u2 l2] w2]] |] eqn:Einner; [| discriminate]
    end.
    apply stream_process_loop_keeps_latch in Einner. subst l2.
    destruct (status_eqb res1 SQUASH_OK && negb eof1); [apply IH |].
    intros H; inversion H; subst. intros e He. discriminate He.
Qed.

Lemma drain_output_keeps_latch fuel out_data size b u l w res u' l' w' :
  drain_output (latch_write write_cb) fuel out_data size b (u, l) w
  = Some (res, ((u', l'), w')) ->
  l' = l.
Proof.
  revert b u w. induction fuel as [| fuel IH]; intros b u w; [discriminate |].
  cbn [drain_output]. unfold latch_write at 1. cbn [fst snd].
  match goal with
  | |- context [write_cb ?n ?d u w] =>
      destruct (write_cb n d u w) as [[res1 k] [u1 w1]]
  end.
  destruct (negb (status_eqb res1 SQUASH_OK)); [intros H; now inversion H |].
  destruct (add_sz b k =? size); [intros H; now inversion H | apply IH].
Qed.

Lemma accumulate_input_latches (limit_input : bool) fuel buffer u w r u' l w' :
  accumulate_input (latch_read read_cb) length limit_input fuel buffer (u, None) w
  = Some (r, ((u', l), w')) ->
  match r with
  | inl res => forall e, l = Some e -> res = e /\ status_neg e = true
  | inr _ => l = None
  end.
Proof.
  revert buffer u w. induction fuel as [| fuel IH]; intros buffer u w;
    [discriminate |].
  cbn [accumulate_input].
  match goal with
  | |- context [squash_buffer_set_size ?n w] =>
      destruct (squash_buffer_set_size n w) as [[|] w1]
  end; cbn [negb].
  - unfold latch_read at 1. cbn [fst snd].
    match goal with
    | |- context [read_cb ?n u w1] =>
        destruct (read_cb n u w1) as [[res0 data] [u1 w2]]
    end.
    destruct (status_neg res0) eqn:Hneg0.
    + intros H; inversion H; subst. intros e He. inversion He; subst. now split.
    + match goal with
      | |- context [if ?c then Some (inr _, _) else _] => destruct c
      end; [intros H; inversion H; subst; reflexivity | apply IH].
  - intros H; inversion H; subst. intros e He. discriminate He.
Qed.

(** X7.  For a codec without a native splice, whenever the read callback
    returns a negative status the splice ends with that status.  The
    callbacks run with a note of the last negative status the read callback
    returned: if there is one when the splice returns, it is the result. *)
Theorem read_error_is_the_result
        (cast : FileSpliceCast (U * option SquashStatus))
        fuel scratch stream_type u options w res u' l w' :
  impl_splice codec = None ->
  squash_splice_custom_codec_with_options
    cast fuel scratch codec stream_type
    (latch_write write_cb) (latch_read read_cb) (u, None) length options w
  = Some (res, ((u', l), w')) ->
  forall e, l = Some e -> res = e /\ status_neg e = true.
Proof.
  intros Hsplice. unfold squash_splice_custom_codec_with_options.
  rewrite Hsplice. destruct (impl_process_stream codec).
  - unfold splice_stream_loop.
    destruct (squash_stream_new_codec_with_options codec stream_type options w)
      as [[stream |] w1];
      [| intros H; inversion H; subst; intros e He; discriminate He].
    destruct (malloc SQUASH_SPLICE_BUF_SIZE w1) as [in_ok w2].
    destruct (malloc SQUASH_SPLICE_BUF_SIZE w2) as [out_ok w3].
    destruct (negb in_ok || negb out_ok);
      [intros H; inversion H; subst; intros e He; discriminate He |].
    match goal with
    | |- context [stream_read_loop ?c ?wc ?rc ?ll ?li ?lo ?f ?s ?ee ?ib ?ob ?uu ?ww] =>
        destruct (stream_read_loop c wc rc ll li lo f s ee ib ob uu ww)
          as [[[res1 s1] [[u2 l2] w4]] |] eqn:Eloop; [| discriminate]
    end.
    intros H; inversion H; subst. intros e He.
    destruct (stream_read_loop_latches _ _ _ _ _ _ _ _ _ Eloop He) as [-> Hneg].
    split; [| exact Hneg].
    destruct (status_eqb e SQUASH_END_OF_STREAM) eqn:E; [| reflexivity].
    apply status_eqb_eq in E. subst e. discriminate Hneg.
  - unfold splice_accumulator.
    match goal with
    | |- context [accumulate_input ?rc ?ll ?li ?f ?b ?uu ?ww] =>
        destruct (accumulate_input rc ll li f b uu ww)
          as [[[res1 | buffer] [[u2 l2] w2]] |] eqn:Eacc; [| | discriminate]
    end; apply accumulate_input_latches in Eacc.
    + intros H; inversion H; subst. exact Eacc.
    + subst l2.
      match goal with
      | |- context [transform_buffer ?c ?o ?f ?st ?b ?ww] =>
          destruct (transform_buffer c o f st b ww)
            as [[[res1 | [[res1 sz] out]] w3] |]; [| | discriminate]
      end.
      * intros H; inversion H; subst. intros e He. discriminate He.
      * intros H. apply drain_output_keeps_latch in H. subst l.
        intros e He. discriminate He.
Qed.

End ReadErrorProperties.

(** ** The file path under a budget *)

Section FilePathBudgetProperties.

Context {P : Platform} {X : Externals}.

(** The number of bytes that have gone where the splice sends them:
    through [fwrite] when decompressing, to [squash_file_write] when
    compressing. *)
Variable moved : W -> Z.

Hypothesis buffer_size : 0 <= SQUASH_FILE_BUF_SIZE.

(** Opening the [SquashFile], allocating the buffer and freeing the
    [SquashFile] move nothing. *)
Hypothesis steal_moves_nothing :
  forall codec fp options w,
    moved (snd (squash_file_steal_codec_with_options codec fp options w)) = moved w.
Hypothesis malloc_moves_nothing :
  forall n w, moved (snd (malloc n w)) = moved w.
Hypothesis free_moves_nothing :
  forall file w, moved (squash_file_free file w) = moved w.

(** [squash_file_read] returns no more bytes than it is asked for, and
    writes nothing. *)
Hypothesis file_read_honest :
  forall f n w,
    0 <= n ->
    zlen (snd (fst (squash_file_read f n w))) <= n
    /\ moved (snd (squash_file_read f n w)) = moved w.

(** [fwrite] of [n] bytes writes no more than [n] bytes. *)
Hypothesis fwrite_counts :
  forall data n fp w,
    0 <= n ->
    moved (snd (SQUASH_FWRITE_UNLOCKED data n fp w)) <= moved w + n.

(** [fread] returns no more bytes than it is asked for, and feeds nothing
    to the compressor. *)
Hypothesis fread_honest :
  forall n fp w,
    0 <= n ->
    zlen (fst (SQUASH_FREAD_UNLOCKED n fp w)) <= n
    /\ moved (snd (SQUASH_FREAD_UNLOCKED n fp w)) = moved w.

(** [squash_file_write] of [n] bytes takes no more than [n] bytes. *)
Hypothesis file_write_counts :
  forall f n data w,
    0 <= n ->
    moved (snd (squash_file_write f n data w)) <= moved w + n.

Lemma stream_request_bounds length remaining :
  length <> 0 -> 0 <= remaining ->
  0 <= stream_request length remaining <= remaining.
Proof using buffer_size.
  intros Hlen Hrem. unfold stream_request.
  destruct (Z.eqb_spec length 0) as [E | _]; [contradiction |]. cbn [orb].
  destruct (Z.gtb_spec remaining SQUASH_FILE_BUF_SIZE); lia.
Qed.

Lemma stream_decompress_loop_within_budget
      fuel file fp_out length remaining res w res' w' :
  length <> 0 ->
  0 <= remaining < SIZE_MODULUS ->
  stream_decompress_loop fuel file fp_out length remaining res w = Some (res', w') ->
  moved w' <= moved w + remaining.
Proof using buffer_size file_read_honest fwrite_counts.
  intros Hlen. revert remaining res w.
  induction fuel as [| fuel IH]; intros remaining res w Hrem; [discriminate |].
  cbn [stream_decompress_loop].
  destruct (Z.eqb_spec length 0) as [E | _]; [contradiction |]. cbn [orb].
  destruct (Z.eqb_spec remaining 0) as [Hz | Hnz]; cbn [negb].
  - intros H; inversion H; subst. lia.
  - pose proof (stream_request_bounds Hlen (proj1 Hrem)) as Hreq.
    destruct (file_read_honest file w (proj1 Hreq)) as [Hdata Hsame].
    destruct (squash_file_read file (stream_request length remaining) w)
      as [[res1 data] w1].
    cbn [fst snd] in Hdata, Hsame.
    pose proof (zlen_nonneg data) as Hnn.
    destruct (status_neg res1); [intros H; inversion H; subst; lia |].
    destruct (Z.gtb_spec (zlen data) 0) as [Hsome | Hnone].
    + pose proof (fwrite_counts data fp_out w1 Hnn) as Hmoved.
      destruct (SQUASH_FWRITE_UNLOCKED data (zlen data) fp_out w1) as [k w2].
      cbn [snd] in Hmoved.
      destruct (k =? 0); [intros H; inversion H; subst; lia |].
      rewrite sub_sz_exact by lia.
      match goal with
      | |- context [status_eqb ?r SQUASH_END_OF_STREAM] =>
          destruct (status_eqb r SQUASH_END_OF_STREAM)
      end; [intros H; inversion H; subst; lia |].
      intros H. apply IH in H; lia.
    + match goal with
      | |- context [status_eqb ?r SQUASH_END_OF_STREAM] =>
          destruct (status_eqb r SQUASH_END_OF_STREAM)
      end; [intros H; inversion H; subst; lia |].
      intros H. apply IH in H; lia.
Qed.

Lemma stream_compress_loop_within_budget
      fuel file fp_in length remaining res w res' w' :
  length <> 0 ->
  0 <= remaining < SIZE_MODULUS ->
  stream_compress_loop fuel file fp_in length remaining res w = Some (res', w') ->
  moved w' <= moved w + remaining.
Proof using buffer_size fread_honest file_write_counts.
  intros Hlen. revert remaining res w.
  induction fuel as [| fuel IH]; intros remaining res w Hrem; [discriminate |].
  cbn [stream_compress_loop].
  destruct (Z.eqb_spec length 0) as [E | _]; [contradiction |]. cbn [orb].
  destruct (Z.eqb_spec remaining 0) as [Hz | Hnz]; cbn [negb].
  - intros H; inversion H; subst. lia.
  - pose proof (stream_request_bounds Hlen (proj1 Hrem)) as Hreq.
    destruct (fread_honest fp_in w (proj1 Hreq)) as [Hdata Hsame].
    destruct (SQUASH_FREAD_UNLOCKED (stream_request length remaining) fp_in w)
      as [data w1].
    cbn [fst snd] in Hdata, Hsame.
    pose proof (zlen_nonneg data) as Hnn.
    destruct (zlen data =? 0); [intros H; inversion H; subst; lia |].
    pose proof (file_write_counts file data w1 Hnn) as Hmoved.
    destruct (squash_file_write file (zlen data) data w1) as [res1 w2].
    cbn [snd] in Hmoved.
    destruct (negb (status_eqb res1 SQUASH_OK));
      [intros H; inversion H; subst; lia |].
    rewrite sub_sz_exact by lia.
    intros H. apply IH in H; lia.
Qed.

(** X13.  Decompressing from a file to a file under a budget of [length]
    bytes, along the stream path: however the splice ends, no more than
    [length] bytes have been written to the output file. *)
Theorem stream_path_writes_within_budget
        fuel fp_in fp_out length codec options w res w' :
  0 < length < SIZE_MODULUS ->
  squash_splice_stream fuel fp_in fp_out length SQUASH_STREAM_DECOMPRESS
                       codec options w = Some (res, w') ->
  moved w' <= moved w + length.
Proof using buffer_size steal_moves_nothing malloc_moves_nothing
            free_moves_nothing file_read_honest fwrite_counts.
  intros Hlen. unfold squash_splice_stream. cbn [status_eqb negb].
  pose proof (steal_moves_nothing codec fp_in options w) as Hsteal.
  destruct (squash_file_steal_codec_with_options codec fp_in options w)
    as [[f |] w1]; cbn [snd] in Hsteal.
  - pose proof (malloc_moves_nothing SQUASH_FILE_BUF_SIZE w1) as Hmalloc.
    destruct (malloc SQUASH_FILE_BUF_SIZE w1) as [[|] w2]; cbn [snd negb] in *.
    + destruct (stream_decompress_loop fuel f fp_out length length SQUASH_FAILED w2)
        as [[res1 w3] |] eqn:Eloop; [| discriminate].
      apply stream_decompress_loop_within_budget in Eloop; [| lia | lia].
      intros H; inversion H; subst. rewrite free_moves_nothing. lia.
    + intros H; inversion H; subst. rewrite free_moves_nothing. lia.
  - intros H; inversion H; subst. rewrite free_moves_nothing. lia.
Qed.

(** X14.  Compressing from a file to a file under a budget of [length]
    bytes, along the stream path: however the splice ends, no more than
    [length] bytes of the input have been handed to the compressor. *)
Theorem stream_path_feeds_within_budget
        fuel fp_in fp_out length codec options w res w' :
  0 < length < SIZE_MODULUS ->
  squash_splice_stream fuel fp_in fp_out length SQUASH_STREAM_COMPRESS
                       codec options w = Some (res, w') ->
  moved w' <= moved w + length.
Proof using buffer_size steal_moves_nothing malloc_moves_nothing
            free_moves_nothing fread_honest file_write_counts.
  intros Hlen. unfold squash_splice_stream. cbn [status_eqb negb].
  pose proof (steal_moves_nothing codec fp_out options w) as Hsteal.
  destruct (squash_file_steal_codec_with_options codec fp_out options w)
    as [[f |] w1]; cbn [snd] in Hsteal.
  - pose proof (malloc_moves_nothing SQUASH_FILE_BUF_SIZE w1) as Hmalloc.
    destruct (malloc SQUASH_FILE_BUF_SIZE w1) as [[|] w2]; cbn [snd negb] in *.
    + destruct (stream_compress_loop fuel f fp_in length length SQUASH_FAILED w2)
        as [[res1 w3] |] eqn:Eloop; [| discriminate].
      apply stream_compress_loop_within_budget in Eloop; [| lia | lia].
      intros H; inversion H; subst. rewrite free_moves_nothing. lia.
    + intros H; inversion H; subst. rewrite free_moves_nothing. lia.
  - intros H; inversion H; subst. rewrite free_moves_nothing. lia.
Qed.

End FilePathBudgetProperties.

(** ** The accumulator from end to end *)

Section AccumulatorResultProperties.

Context {P : Platform} {X : Externals} {U : Type}.
Variable codec : SquashCodec.
Variable write_cb : SquashWriteFunc U.
Variable read_cb : SquashReadFunc U.
Variable options : SquashOptions.

(** The bytes the sink has received so far. *)
Variable received : U -> list byte.

(** The sink works: asked for [n > 0] bytes it takes the first [k] of them,
    at least one, and returns OK. *)
Hypothesis sink_appends :
  forall n data u w res k u' w',
    write_cb n data u w = ((res, k), (u', w')) ->
    0 < n ->
    res = SQUASH_OK /\ 0 < k <= n
    /\ received u' = received u ++ firstn (Z.to_nat k) data.

Lemma blit_length (stored block : list byte) :
  zlen block <= zlen (blit stored block).
Proof.
  unfold blit, zlen. rewrite length_app, length_skipn. lia.
Qed.

(** X18.  Decompressing through the accumulator with a codec that knows the
    uncompressed size: the status of [decompress_buffer] is not the result.
    Whatever status [res] the one call returns, a working sink receives
    exactly the first [c] bytes of the output block, [c] being the length
    the codec left, cut at [length] under a budget: what the codec stored,
    followed by what [malloc] had left in the block.  The splice returns
    OK: an error of [decompress_buffer] is not reported. *)
Theorem accumulator_result_is_the_sink_s
        (length : Z) (limit_input limit_output : bool) fuel
        u w buffer u1 w1 w2 res c stored w3 :
  accumulate_input read_cb length limit_input fuel [] u w
  = Some (inr buffer, (u1, w1)) ->
  knows_uncompressed_size codec = true ->
  malloc (squash_codec_get_uncompressed_size codec (zlen buffer) buffer) w1
  = (true, w2) ->
  zlen (malloc_data
          (squash_codec_get_uncompressed_size codec (zlen buffer) buffer) w2)
  = squash_codec_get_uncompressed_size codec (zlen buffer) buffer ->
  squash_codec_decompress_with_options
    codec (squash_codec_get_uncompressed_size codec (zlen buffer) buffer)
    (zlen buffer) buffer options w2
  = ((res, c, stored), w3) ->
  0 < (if limit_output && (c >? length) then length else c)
    <= squash_codec_get_uncompressed_size codec (zlen buffer) buffer ->
  squash_codec_get_uncompressed_size codec (zlen buffer) buffer < SIZE_MODULUS ->
  (Z.to_nat (if limit_output && (c >? length) then length else c) <= fuel)%nat ->
  exists u' w' bytes,
    splice_accumulator codec write_cb read_cb length limit_input limit_output
                       options fuel SQUASH_STREAM_DECOMPRESS u w
    = Some (SQUASH_OK, (u', w'))
    /\ received u' = received u1 ++ bytes
    /\ zlen bytes = (if limit_output && (c >? length) then length else c)
    /\ bytes
       = firstn (Z.to_nat (if limit_output && (c >? length) then length else c))
                (blit stored
                      (malloc_data
                         (squash_codec_get_uncompressed_size
                            codec (zlen buffer) buffer) w2)).
Proof.
  intros Hread Hknows Hm Hblock Hd Hsize Hmod Hfuel.
  unfold splice_accumulator, transform_buffer. rewrite Hread, Hknows.
  destruct (Z.eqb_spec
              (squash_codec_get_uncompressed_size codec (zlen buffer) buffer) 0)
    as [E | _]; [lia |].
  rewrite Hm. cbn [negb]. rewrite Hd.
  assert (Hn : (if limit_output && (c >? length) then length else c)
               < SIZE_MODULUS) by lia.
  destruct (@drain_output_appends
              P U write_cb received sink_appends
              (blit stored
                    (malloc_data
                       (squash_codec_get_uncompressed_size
                          codec (zlen buffer) buffer) w2))
              _ Hn fuel 0 u1 w3)
    as [u' [w' [Hrun Hrec]]]; [lia | rewrite Z.sub_0_r; exact Hfuel |].
  rewrite Z.sub_0_r in Hrec. cbn [skipn Z.to_nat] in Hrec.
  eexists u', w', _. split; [exact Hrun |]. split; [exact Hrec |].
  split; [| reflexivity].
  pose proof (blit_length
                stored
                (malloc_data
                   (squash_codec_get_uncompressed_size codec (zlen buffer) buffer)
                   w2)) as Hlen.
  unfold zlen in *. rewrite length_firstn. lia.
Qed.

End AccumulatorResultProperties.

(** ** The snappy plugin on input the library rejects *)

Section SnappyRejectedProperties.

Context {L : SnappyLibrary}.

(** X17.  [squash_snappy_get_uncompressed_size] does not look at the status
    of the library: with a library that leaves the result alone when it
    rejects the input, the size reported for rejected input is 0, as it is
    for input that decodes to nothing. *)
Theorem snappy_uncompressed_size_of_rejected_input
        (compressed : list byte) (compressed_length : Z) :
  (forall c n r, fst (snappy_uncompressed_length c n r) <> SNAPPY_OK ->
                 snd (snappy_uncompressed_length c n r) = r) ->
  fst (snappy_uncompressed_length compressed compressed_length 0) <> SNAPPY_OK ->
  squash_snappy_get_uncompressed_size compressed compressed_length = 0.
Proof.
  intros Hleaves Hrejected. unfold squash_snappy_get_uncompressed_size.
  specialize (Hleaves compressed compressed_length 0 Hrejected).
  destruct (snappy_uncompressed_length compressed compressed_length 0) as [e r].
  exact Hleaves.
Qed.

End SnappyRejectedProperties.

(** * The properties at work *)

Lemma zlen_firstn_le (l : list byte) (m : Z) :
  0 <= m -> zlen (firstn (Z.to_nat m) l) <= m.
Proof.
  intros Hm. unfold zlen. rewrite length_firstn. lia.
Qed.

Lemma X3_witness :
  zlen ["w"; "x"]%byte <= Z.min 10 (3 - 1)
  /\ file_pos (budgeted_source 3) = 1 + 2.
Proof.
  destruct (@file_splice_read_stays_within_length
              log_platform (five_byte_file None)
              (budgeted_source 1) 10 []
              SQUASH_OK ["w"; "x"]%byte
              (budgeted_source 3) [CallFread 2]
              eq_refl
              ltac:(discriminate)
              ltac:(vm_compute; split; discriminate)
              eq_refl
              ltac:(discriminate)
              (fun m fp w0 => @zlen_firstn_le _ m)
              eq_refl)
    as [Hdata [Hpos _]].
  split; [exact Hdata | exact Hpos].
Defined.

Lemma pipe_write_one_appends
      n data u (w : list Call) res k u' (w' : list Call) :
  pipe_write 1 n data u w = ((res, k), (u', w')) ->
  0 < n ->
  res = SQUASH_OK /\ 0 < k <= n
  /\ sink u' = sink u ++ firstn (Z.to_nat k) data.
Proof.
  unfold pipe_write. intros H Hn. inversion H; subst. cbn [sink].
  repeat split; lia.
Qed.

Lemma X5_witness :
  exists u' w',
    drain_output (pipe_write 1) 3 ["a"; "b"; "c"]%byte 3 0 (mkPipe [] [] 0 0 0) []
    = Some (SQUASH_OK, (u', w'))
    /\ sink u'
       = sink (mkPipe [] [] 0 0 0) ++ firstn (Z.to_nat 3) ["a"; "b"; "c"]%byte.
Proof.
  apply (@drain_output_delivers_the_output
           log_platform Pipe (pipe_write 1) sink pipe_write_one_appends).
  - vm_compute. split; reflexivity.
  - vm_compute. apply le_n.
Defined.

Lemma pipe_take_honest n u0 (w0 : list Call) :
  0 <= n -> zlen (snd (fst (pipe_take n u0 w0))) <= n.
Proof.
  intros Hn. unfold pipe_take. destruct (source_chunks u0); cbn [fst snd].
  - exact Hn.
  - now apply zlen_firstn_le.
Qed.

Lemma X6_witness :
  zlen ["a"; "b"; "c"]%byte <= 3
  /\ exists tail, ["a"; "b"; "c"]%byte = [] ++ tail.
Proof.
  apply (@accumulate_input_stays_within_budget
           log_platform (five_byte_file None) Pipe pipe_take 3 5 []
           (mkPipe [["a"; "b"; "c"; "d"; "e"]%byte] [] 0 0 0) []
           ["a"; "b"; "c"]%byte (mkPipe [["d"; "e"]%byte] [] 0 1 0)
           [CallSetSize 3]).
  - vm_compute. split; reflexivity.
  - exact pipe_take_honest.
  - vm_compute. discriminate.
  - reflexivity.
Defined.

Lemma X7_witness :
  SQUASH_IO = SQUASH_IO /\ status_neg SQUASH_IO = true.
Proof.
  exact (@read_error_is_the_result
           log_platform (five_byte_file None) Pipe (stream_codec true true)
           (pipe_write 512) pipe_read_then_fails 0 noted_pipe_cast 20 []
           SQUASH_STREAM_COMPRESS four_byte_pipe tt []
           SQUASH_IO (mkPipe [] ["a"; "b"; "c"; "d"]%byte 4 2 1) (Some SQUASH_IO)
           [CallProcess false ["a"; "b"; "c"; "d"]%byte; CallMalloc 512;
            CallMalloc 512]
           eq_refl eq_refl SQUASH_IO eq_refl).
Defined.

Lemma X8_witness :
  SQUASH_OK = SQUASH_OK \/ status_neg SQUASH_OK = true.
Proof.
  exact (@stream_splice_returns_ok_or_an_error
           log_platform (five_byte_file None) Pipe (stream_codec true true)
           (pipe_write 512) pipe_read 0 pipe_cast 20 []
           SQUASH_STREAM_COMPRESS four_byte_pipe tt []
           SQUASH_OK
           (mkPipe [] ["a"; "b"; "c"; "d"]%byte 4 2 1,
            [CallProcess true []; CallProcess false ["a"; "b"; "c"; "d"]%byte;
             CallMalloc 512; CallMalloc 512])
           eq_refl eq_refl eq_refl).
Defined.

Lemma X10_witness :
  squash_splice_detect_once (mkStatics true 2) = true
  /\ (squash_splice_try_mmap (mkStatics true 2) = 1
      \/ squash_splice_try_mmap (mkStatics true 2) = 2
      \/ squash_splice_try_mmap (mkStatics true 2) = 3)
  /\ statics_ok (mkStatics true 2).
Proof.
  apply (@dispatcher_decides_preference
           log_platform (five_byte_file None) 20 [] (stream_codec true true)
           SQUASH_STREAM_COMPRESS false true 0 tt statics_at_start []
           SQUASH_OK (mkStatics true 2)
           [CallFileFree; CallFread 0;
            CallFileWrite ["w"; "x"; "y"; "z"; "!"]%byte;
            CallFread 5; CallMalloc 1048576; CallFileSteal]).
  - intros F. discriminate F.
  - reflexivity.
Defined.

Lemma X11_witness :
  page_size_calls 0 [Sysconf (-1); Sysconf 4096] = [8192; 8192].
Proof.
  exact (page_size_falls_back_to_8192 (Sysconf (-1)) [Sysconf 4096] eq_refl).
Defined.

Lemma X12_witness :
  splice_accumulator (X := five_byte_file None)
    zero_reporting_codec (pipe_write 512) pipe_read 0 false false tt 5
    SQUASH_STREAM_DECOMPRESS four_byte_pipe []
  = Some (SQUASH_INVALID_BUFFER,
          (mkPipe [] [] 0 2 0, [CallSetSize 516; CallSetSize 512]))
  /\ splice_accumulator (X := five_byte_file None)
       cramped_codec (pipe_write 512) pipe_read 0 false false tt 5
       SQUASH_STREAM_COMPRESS four_byte_pipe []
     = Some (SQUASH_BUFFER_FULL,
             (mkPipe [] [] 0 2 0,
              [CallCompress 0; CallMalloc 0; CallSetSize 516; CallSetSize 512])).
Proof.
  split.
  - exact (proj1
      (@accumulator_gives_up_before_writing
         log_platform (five_byte_file None) Pipe zero_reporting_codec
         (pipe_write 512) pipe_read tt 0 false false 5 four_byte_pipe []
         ["a"; "b"; "c"; "d"]%byte (mkPipe [] [] 0 2 0)
         [CallSetSize 516; CallSetSize 512] eq_refl)
      eq_refl eq_refl).
  - refine (proj2
      (@accumulator_gives_up_before_writing
         log_platform (five_byte_file None) Pipe cramped_codec
         (pipe_write 512) pipe_read tt 0 false false 5 four_byte_pipe []
         ["a"; "b"; "c"; "d"]%byte (mkPipe [] [] 0 2 0)
         [CallSetSize 516; CallSetSize 512] eq_refl)
      [CallMalloc 0; CallSetSize 516; CallSetSize 512]
      SQUASH_BUFFER_FULL 4 ["a"; "b"; "c"; "d"]%byte
      [CallCompress 0; CallMalloc 0; CallSetSize 516; CallSetSize 512]
      eq_refl eq_refl _).
    discriminate.
Defined.

Lemma fwritten_after_fwrite data n (fp : bool) (w : list Call) :
  0 <= n ->
  bytes_fwritten
    (snd (SQUASH_FWRITE_UNLOCKED (Externals := log_externals None [] snappy_only)
            data n fp w))
  <= bytes_fwritten w + n.
Proof.
  intros Hn. pose proof (zlen_firstn_le data Hn) as Hle.
  change (zlen (firstn (Z.to_nat n) data) + bytes_fwritten w
          <= bytes_fwritten w + n).
  lia.
Qed.

Lemma file_written_after_write (f : unit) n data (w : list Call) :
  0 <= n ->
  bytes_file_written
    (snd (squash_file_write (Externals := five_byte_file None) f n data w))
  <= bytes_file_written w + n.
Proof.
  intros Hn. pose proof (zlen_firstn_le data Hn) as Hle.
  change (zlen (firstn (Z.to_nat n) data) + bytes_file_written w
          <= bytes_file_written w + n).
  lia.
Qed.

Lemma X13_witness :
  bytes_fwritten
    [CallFileFree; CallFwrite ["e"%byte]; CallFileRead 1;
     CallFwrite ["a"; "b"; "c"; "d"]%byte; CallFileRead 4; CallMalloc 4;
     CallFileSteal]
  <= bytes_fwritten [] + 5.
Proof.
  apply (@stream_path_writes_within_budget
           log_platform
           (decoding_externals ["a"; "b"; "c"; "d"; "e"; "f"]%byte [])
           bytes_fwritten) with (fuel := 20%nat) (fp_in := true) (fp_out := false)
                                (codec := stream_codec true true) (options := tt)
                                (res := SQUASH_OK).
  - vm_compute. discriminate.
  - intros codec fp options w. reflexivity.
  - intros n w. reflexivity.
  - intros file w. reflexivity.
  - intros f n w Hn. split; [now apply zlen_firstn_le | reflexivity].
  - exact fwritten_after_fwrite.
  - vm_compute. split; reflexivity.
  - reflexivity.
Defined.

Lemma X14_witness :
  bytes_file_written
    [CallFileFree; CallFileWrite ["w"; "x"; "y"]%byte; CallFread 3;
     CallMalloc 1048576; CallFileSteal]
  <= bytes_file_written [] + 3.
Proof.
  apply (@stream_path_feeds_within_budget
           log_platform (five_byte_file None) bytes_file_written)
    with (fuel := 20%nat) (fp_in := true) (fp_out := false)
         (codec := stream_codec true true) (options := tt) (res := SQUASH_OK).
  - vm_compute. discriminate.
  - intros codec fp options w. reflexivity.
  - intros n w. reflexivity.
  - intros file w. reflexivity.
  - intros n fp w Hn. split; [now apply zlen_firstn_le | reflexivity].
  - exact file_written_after_write.
  - vm_compute. split; reflexivity.
  - reflexivity.
Defined.

Lemma X17_witness :
  squash_snappy_get_uncompressed_size (L := stored_snappy) [] 0 = 0.
Proof.
  apply (@snappy_uncompressed_size_of_rejected_input stored_snappy [] 0).
  - intros c n r. destruct c as [| b c]; cbn; [reflexivity |].
    intros H. now contradiction H.
  - cbn. discriminate.
Defined.

Lemma X18_witness :
  exists u' w' bytes,
    splice_accumulator (X := five_byte_file None)
      short_reporting_codec (pipe_write 1) pipe_read 0 false false tt 5
      SQUASH_STREAM_DECOMPRESS four_byte_pipe []
    = Some (SQUASH_OK, (u', w'))
    /\ sink u' = sink (mkPipe [] [] 0 2 0) ++ bytes
    /\ zlen bytes = 4
    /\ bytes = firstn (Z.to_nat 4) (blit [] ["?"; "?"; "?"; "?"]%byte).
Proof.
  apply (@accumulator_result_is_the_sink_s
           log_platform (five_byte_file None) Pipe short_reporting_codec
           (pipe_write 1) pipe_read tt sink pipe_write_one_appends
           0 false false 5 four_byte_pipe []
           ["a"; "b"; "c"; "d"]%byte (mkPipe [] [] 0 2 0)
           [CallSetSize 516; CallSetSize 512]
           [CallMalloc 4; CallSetSize 516; CallSetSize 512]
           SQUASH_BUFFER_FULL 4 []
           [CallDecompress 4; CallMalloc 4; CallSetSize 516; CallSetSize 512]).
  - reflexivity.
  - reflexivity.
  - reflexivity.
  - reflexivity.
  - reflexivity.
  - vm_compute. split; [reflexivity | discriminate].
  - vm_compute. reflexivity.
  - vm_compute. repeat constructor.
Defined.

Lemma X19_witness :
  taken four_byte_pipe <= taken (mkPipe [] ["a"; "b"; "c"]%byte 3 1 1)
  <= taken four_byte_pipe + 3.
Proof.
  apply (@stream_splice_keeps_the_output_budget
           log_platform (five_byte_file None) Pipe (stream_codec true true)
           (pipe_write 512) pipe_read 3 taken
           ltac:(vm_compute; split; reflexivity)
           (pipe_write_takes (most := 512) eq_refl)
           pipe_read_keeps
           (copy_step_counts true true)
           (@stream_codec_starts true true)
           pipe_cast 20 [] four_byte_pipe tt []
           SQUASH_OK (mkPipe [] ["a"; "b"; "c"]%byte 3 1 1)
           [CallProcess false ["a"; "b"; "c"; "d"]%byte;
            CallMalloc 512; CallMalloc 512]).
  - reflexivity.
  - reflexivity.
  - reflexivity.
Defined.
